(** * The streaming code builder: file-set demultiplexer, formatter gateway,
      persisted-state loader and active-file pointer

    A shallow embedding of the application component (the generation
    handler [handleSubmit], the persisted-state initialiser, the pointer
    re-validation effect), of [CodeWorkspace]'s file handlers and of
    [utils/formatter.ts], followed by the properties the specification
    states about them; then of the new-file dialog, the selections of the
    preview, the editor's language table and the folder tree of the side
    bar, with further properties read off the code.

    Conventions of the embedding.
    - A JavaScript string is a sequence of code units; the embedding keeps
      the 8-bit ones (U+0000 to U+00FF), as Rocq's [string].
    - The state hooks are embedded by state passing. A call of a setter
      made by a handler that runs to its end without a pause ([setFiles u] in
      [CodeWorkspace], [resetProject]) replaces the state at once. The calls
      the generation handler makes while it goes through a chunk are queued:
      React runs the queued updaters, in the order of the calls, at the render
      that follows the chunk. What an updater holds in a [const] is the value
      of the call; a [let] variable it mentions is read when the updater is
      run, and so holds what the loop left in it at the end of the chunk.
    - The external collaborators (the pretty-printer and [JSON.parse]) are
      the fields of the class [External]; the generation service is the
      [Stream] a request is answered with. What is written to the console,
      and the build-time constant that guards one such warning, are left out. *)

From Equations Require Import Equations.
From Stdlib Require Import Ascii String.
From stdpp Require Import gmap strings list.

(** ** JavaScript string primitives used by the sources *)

Module JS.

(** [s.indexOf(c)] for a one-character needle; [None] stands for [-1]. *)
Fixpoint indexOf (c : ascii) (s : string) : option nat :=
  match s with
  | EmptyString => None
  | String a s' => if Ascii.eqb a c then Some 0 else S <$> indexOf c s'
  end.

(** [s.lastIndexOf(c)] for a one-character needle. *)
Fixpoint lastIndexOf (c : ascii) (s : string) : option nat :=
  match s with
  | EmptyString => None
  | String a s' =>
      match lastIndexOf c s' with
      | Some i => Some (S i)
      | None => if Ascii.eqb a c then Some 0 else None
      end
  end.

Fixpoint take (n : nat) (s : string) : string :=
  match n, s with
  | S n', String a s' => String a (take n' s')
  | _, _ => EmptyString
  end.

Fixpoint drop (n : nat) (s : string) : string :=
  match n, s with
  | S n', String _ s' => drop n' s'
  | _, _ => s
  end.

(** [s.substring(start, end)]: both indices are clamped to the length and
    swapped when [start > end]. *)
Definition substring (s : string) (start stop : nat) : string :=
  take (Nat.max start stop - Nat.min start stop) (drop (Nat.min start stop) s).

(** [s.substring(start)]. *)
Definition substringFrom (s : string) (start : nat) : string := drop start s.

(** [s.startsWith(p)]. *)
Fixpoint startsWith (s p : string) : bool :=
  match p, s with
  | EmptyString, _ => true
  | String b p', String a s' => Ascii.eqb a b && startsWith s' p'
  | String _ _, EmptyString => false
  end.

(** [s.endsWith(p)]. *)
Definition endsWith (s p : string) : bool :=
  String.eqb (drop (String.length s - String.length p) s) p.

(** [s.includes(p)]. *)
Fixpoint includes (s p : string) : bool :=
  startsWith s p ||
  match s with
  | EmptyString => false
  | String _ s' => includes s' p
  end.

(** White space and line terminators of the language, in the 8-bit range:
    TAB, LF, VT, FF, CR, SP and NBSP. *)
Definition isWhiteSpace (a : ascii) : bool :=
  match nat_of_ascii a with
  | 9 | 10 | 11 | 12 | 13 | 32 | 160 => true
  | _ => false
  end.

Fixpoint trimStart (s : string) : string :=
  match s with
  | EmptyString => EmptyString
  | String a s' => if isWhiteSpace a then trimStart s' else s
  end.

Fixpoint trimEnd (s : string) : string :=
  match s with
  | EmptyString => EmptyString
  | String a s' =>
      match trimEnd s' with
      | EmptyString => if isWhiteSpace a then EmptyString else String a EmptyString
      | t => String a t
      end
  end.

(** [s.trim()]. *)
Definition trim (s : string) : string := trimEnd (trimStart s).

(** Truthiness of a string: only the empty string is falsy. *)
Definition truthy (s : string) : bool := negb (String.eqb s "").

(** Truthiness of a [string | null]. *)
Definition truthy_opt (o : option string) : bool :=
  match o with
  | Some s => truthy s
  | None => false
  end.

(** [a || b] on strings. *)
Definition or_else (a b : string) : string := if truthy a then a else b.

(** Number of occurrences of a character: [(s.match(/c/g) || []).length]. *)
Fixpoint count (c : ascii) (s : string) : nat :=
  match s with
  | EmptyString => 0
  | String a s' => (if Ascii.eqb a c then 1 else 0) + count c s'
  end.

Definition LF : ascii := "010"%char.

End JS.

(** ** The data model ([CodeWorkspace.tsx], interface [FileData]) *)

Inductive FileType := file | folder.

(** The optional [children] of a folder node belong to the tree view built
    by [buildTreeStructure]; no record of the File Set carries them. *)
Record FileData := mkFileData {
  fileName : string;
  content : string;
  path : option string;
  type : option FileType
}.

(** [{ ...f, content: c }] *)
Definition with_content (f : FileData) (c : string) : FileData :=
  {| fileName := fileName f; content := c; path := path f; type := type f |}.

(** The application state the claims are about. *)
Record App := mkApp {
  files : list FileData;
  activeFileName : string;
  isLoading : bool;
  error : option string
}.

Definition setFiles (u : list FileData → list FileData) (a : App) : App :=
  {| files := u (files a); activeFileName := activeFileName a;
     isLoading := isLoading a; error := error a |}.

Definition setActiveFileName (n : string) (a : App) : App :=
  {| files := files a; activeFileName := n;
     isLoading := isLoading a; error := error a |}.

Definition setIsLoading (b : bool) (a : App) : App :=
  {| files := files a; activeFileName := activeFileName a;
     isLoading := b; error := error a |}.

Definition setError (e : option string) (a : App) : App :=
  {| files := files a; activeFileName := activeFileName a;
     isLoading := isLoading a; error := e |}.

(** [files.some(f => f.fileName === n)] *)
Definition hasFile (n : string) (fs : list FileData) : bool :=
  existsb (λ f, String.eqb (fileName f) n) fs.

(** [files[0]?.fileName || ''] *)
Definition firstFileName (fs : list FileData) : string :=
  match fs with
  | [] => ""
  | f :: _ => JS.or_else (fileName f) ""
  end.

(** ** The stream demultiplexer ([handleSubmit]) *)

Definition MARKER : string := ">>>FILE:".

(** The record a marker creates, with its folder path. *)
Definition fileData (newFileName : string) : FileData :=
  {| fileName := newFileName;
     content := "";
     type := Some file;
     path := Some (if JS.includes newFileName "/"
                   then JS.substring newFileName 0
                          (default 0 (JS.lastIndexOf "/"%char newFileName))
                   else "") |}.

(** The updater of the marker branch. *)
Definition addFile (newFileName : string) (prevFiles : list FileData) : list FileData :=
  if hasFile newFileName prevFiles then prevFiles
  else prevFiles ++ [fileData newFileName].

(** The updater of the content branches: every record named [target] gets
    [text] appended. *)
Definition appendTo (target text : string) (prevFiles : list FileData) : list FileData :=
  map (λ f, if String.eqb (fileName f) target
            then with_content f (content f +:+ text)
            else f) prevFiles.

(** The state of one generation request between two chunks: the
    application state as last rendered and the two locals of [handleSubmit]. *)
Record Demux := mkDemux {
  st : App;
  currentFileName : option string;
  buffer : string
}.

Definition with_buffer (b : string) (r : Demux) : Demux :=
  {| st := st r; currentFileName := currentFileName r; buffer := b |}.

(** The calls the loop makes to the state hooks. [AddFile] and [Activate]
    hold the [const newFileName] of their line. The updater of [AppendLine]
    holds the text of its line, a [const] too, and mentions the variable
    [currentFileName]: the name it appends to is read when the updater is
    run. *)
Inductive Call :=
| AddFile (newFileName : string)   (* setFiles(prevFiles => ... [...prevFiles, fileData]) *)
| Activate (newFileName : string)  (* setActiveFileName(newFileName) *)
| AppendLine (text : string).      (* setFiles(prevFiles => prevFiles.map(...)) *)

(** A queued call is run; [target] is what [currentFileName] holds by then
    ([None] for [null], which no [fileName] equals). *)
Definition runCall (target : option string) (a : App) (c : Call) : App :=
  match c with
  | AddFile newFileName => setFiles (addFile newFileName) a
  | Activate newFileName => setActiveFileName newFileName a
  | AppendLine text =>
      match target with
      | Some name => setFiles (appendTo name text) a
      | None => a
      end
  end.

(** The render that follows a chunk: the queued calls in their order. *)
Definition render (target : option string) (calls : list Call) (a : App) : App :=
  fold_left (runCall target) calls a.

(** The body of the [while] loop once [line] has been cut off the buffer:
    the calls it makes and what it leaves in [currentFileName]. The test
    [else if (currentFileName)] is made here, when the line is read. *)
Definition readLine (line : string) (cur : option string) : list Call * option string :=
  if JS.startsWith line MARKER then
    let newFileName := JS.trim (JS.substringFrom line (String.length MARKER)) in
    if JS.truthy newFileName
    then ([AddFile newFileName; Activate newFileName], Some newFileName)
    else ([], cur)
  else if JS.truthy_opt cur
  then ([AppendLine (line +:+ String JS.LF "")], cur)
  else ([], cur).

(** A line that is read and whose calls are run before any other line is
    read: the case of a line that is the only one its chunk completes. *)
Definition onLine (line : string) (a : App) (cur : option string) : App * option string :=
  let '(calls, cur') := readLine line cur in
  (render cur' calls a, cur').

(** One iteration of the loop, for a buffer whose first newline is at
    [lineEndIndex]; the calls of the line join the queue. *)
Definition iteration (lineEndIndex : nat) (p : list Call * Demux) : list Call * Demux :=
  let line := JS.substring (buffer p.2) 0 lineEndIndex in
  let rest := JS.substringFrom (buffer p.2) (lineEndIndex + 1) in
  let '(calls, cur) := readLine line (currentFileName p.2) in
  (p.1 ++ calls, {| st := st p.2; currentFileName := cur; buffer := rest |}).

Definition inspect {A} (a : A) : {b | a = b} := exist _ a eq_refl.

(** [while ((lineEndIndex = buffer.indexOf('\n')) !== -1) { ... }] *)
Equations? drain (p : list Call * Demux) : list Call * Demux
    by wf (String.length (buffer p.2)) lt :=
  drain p with inspect (JS.indexOf JS.LF (buffer p.2)) := {
    | exist _ (Some lineEndIndex) e := drain (iteration lineEndIndex p);
    | exist _ None _ := p }.
Proof.
  unfold iteration. destruct (readLine _ _) as [calls cur]. simpl.
  clear drain. unfold JS.substringFrom.
  generalize dependent lineEndIndex.
  induction (buffer p.2) as [|c s IH]; intros i; simpl; [done|].
  destruct (Ascii.eqb c JS.LF).
  - intros [= <-]. simpl. destruct s; simpl; lia.
  - destruct (JS.indexOf JS.LF s) as [j|]; simpl; [|done].
    intros [= <-]. specialize (IH j eq_refl). simpl. lia.
Qed.

(** The body of [for await (const chunk of stream)], and the render that
    follows it: the loop goes through the buffer with nothing queued before
    it, then the calls it made are run, [currentFileName] holding what the
    loop left in it. *)
Definition onChunk (text : string) (r : Demux) : Demux :=
  let p := drain ([], with_buffer (buffer r +:+ text) r) in
  {| st := render (currentFileName p.2) p.1 (st p.2);
     currentFileName := currentFileName p.2;
     buffer := buffer p.2 |}.

(** The statement after the loop: the unterminated rest of the buffer. Its
    updater is run when both locals have the values the stream left. *)
Definition flush (r : Demux) : App :=
  if JS.truthy_opt (currentFileName r) && (0 <? String.length (buffer r))
  then setFiles (appendTo (default "" (currentFileName r)) (buffer r)) (st r)
  else st r.

(** What the generation service answers with: the chunks it delivers and,
    when the request fails, the value thrown after them. *)
Inductive Thrown := ErrorObject (message : string) | OtherValue.

Record Stream := mkStream {
  chunks : list string;
  thrown : option Thrown
}.

Definition start (a : App) : Demux :=
  {| st := a; currentFileName := None; buffer := "" |}.

Definition feed (cs : list string) (r : Demux) : Demux :=
  fold_left (λ r c, onChunk c r) cs r.

(** The File Set a run over [cs] ends with when the stream completes. *)
Definition demultiplex (cs : list string) (a : App) : App :=
  flush (feed cs (start a)).

(** ** Exceptions and the external collaborators *)

(** How a call (or an awaited promise) ends: with a value, or by throwing. *)
Inductive Completion (A : Type) : Type :=
| Normal (a : A)
| Throw.
Arguments Normal {A} a.
Arguments Throw {A}.

#[global] Instance Completion_ret : MRet Completion := λ A a, Normal a.

#[global] Instance Completion_bind : MBind Completion := λ A B k c,
  match c with
  | Normal a => k a
  | Throw => Throw
  end.

(** [try { c } catch { h }] *)
Definition try_catch {A} (c : Completion A) (h : A) : A :=
  match c with
  | Normal a => a
  | Throw => h
  end.

(** A value produced by [JSON.parse]. A number's value plays no part. *)
#[warnings="-register-all"]
Inductive json :=
| JNull
| JBool (b : bool)
| JNumber (n : Z)
| JString (s : string)
| JArray (items : list json)
| JObject (fields : list (string * json)).

Inductive Parser := html | css | babel.

Class External := {
  (** [prettier.format(content, { parser, ... })]; [Throw] when it rejects *)
  prettier_format : Parser → string → Completion string;
  (** [JSON.parse(text)]; [Throw] on a syntax error *)
  JSON_parse : string → Completion json
}.

(** ** The formatter gateway ([utils/formatter.ts]) *)

Definition getParser (fileName : string) : option Parser :=
  if JS.endsWith fileName ".html" then Some html
  else if JS.endsWith fileName ".css" then Some css
  else if JS.endsWith fileName ".js" || JS.endsWith fileName ".jsx"
          || JS.endsWith fileName ".ts" || JS.endsWith fileName ".tsx" then Some babel
  else None.

(** The warnings written to the console are no part of the result. *)
Definition formatCode `{External} (fileName content : string) : Completion string :=
  match getParser fileName with
  | None => Normal content
  | Some parser =>
      let openBraces := JS.count "{"%char content in
      let closeBraces := JS.count "}"%char content in
      if JS.endsWith fileName ".css" && negb (openBraces =? closeBraces)
      then Normal content
      else if negb (JS.truthy (JS.trim content))
              || (String.length (JS.trim content) <? 10)
      then Normal content
      else Normal (try_catch (prettier_format parser content) content)
  end.

(** ** The generation handler ([handleSubmit]) *)

Definition errorMessage (e : Thrown) : string :=
  match e with
  | ErrorObject message => message
  | OtherValue => "An unknown error occurred."
  end.

(** [try { for await ... ; flush } catch (e) { setError(...) }
    finally { setIsLoading(false); ... }]: the state when the handler's
    synchronous part is over. *)
Definition generate (s : Stream) (a : App) : App :=
  let r := feed (chunks s) (start (setError None (setIsLoading true a))) in
  let a' :=
    match thrown s with
    | None => flush r
    | Some e =>
        setError (Some ("Failed to generate code: " +:+ errorMessage e
                        +:+ ". Please check your API key and try again.")) (st r)
    end in
  setIsLoading false a'.

(** [Promise.all(currentFiles.map(async file => ({ fileName, content: await
    formatCode(...) })))] *)
Fixpoint formatAll `{External} (currentFiles : list FileData) : Completion (list FileData) :=
  match currentFiles with
  | [] => Normal []
  | f :: fs =>
      c ← formatCode (fileName f) (content f);
      rest ← formatAll fs;
      Normal ({| fileName := fileName f; content := c; path := None; type := None |}
              :: rest)
  end.

(** The formatting pass started in [finally]: once the promise settles,
    [setFiles(formattedFiles)], or only a warning if it rejected. *)
Definition formatted `{External} (a : App) : App :=
  match formatAll (files a) with
  | Normal formattedFiles => setFiles (λ _, formattedFiles) a
  | Throw => a
  end.

(** The whole handler. [prompt] is the prompt state. Restarting voice
    capture at the end is not part of the state kept here. *)
Definition handleSubmit `{External}
    (finalPrompt : option string) (prompt : string) (s : Stream) (a : App) : App :=
  let promptToUse := JS.or_else (default "" finalPrompt) prompt in
  if negb (JS.truthy (JS.trim promptToUse)) || isLoading a then a
  else formatted (generate s a).

(** ** Persisted state (the initialiser of the [files] state) *)

Definition DEFAULT_FILES : list FileData := [].

Definition PROJECT_KEY : string := "code-project".

Inductive TypeOf := t_object | t_boolean | t_number | t_string | t_undefined.

(** [typeof v]; [None] is [undefined]. *)
Definition typeof (v : option json) : TypeOf :=
  match v with
  | None => t_undefined
  | Some JNull | Some (JArray _) | Some (JObject _) => t_object
  | Some (JBool _) => t_boolean
  | Some (JNumber _) => t_number
  | Some (JString _) => t_string
  end.

Definition is_object (t : TypeOf) : bool :=
  match t with t_object => true | _ => false end.

Definition is_string (t : TypeOf) : bool :=
  match t with t_string => true | _ => false end.

Fixpoint assoc (k : string) (fields : list (string * json)) : option json :=
  match fields with
  | [] => None
  | (k', v) :: rest => if String.eqb k' k then Some v else assoc k rest
  end.

(** [v.k] for the two property names read here: a [TypeError] on [null],
    [undefined] on a value without such a property. *)
Definition getProp (v : json) (k : string) : Completion (option json) :=
  match v with
  | JNull => Throw
  | JObject fields => Normal (assoc k fields)
  | _ => Normal None
  end.

(** The predicate passed to [every]; [&&] evaluates left to right. *)
Definition validFile (f : json) : Completion bool :=
  if is_object (typeof (Some f)) then
    n ← getProp f "fileName";
    if is_string (typeof n) then
      c ← getProp f "content";
      Normal (is_string (typeof c))
    else Normal false
  else Normal false.

(** [items.every(p)]: stops at the first [false], and at the first throw. *)
Fixpoint every (p : json → Completion bool) (items : list json) : Completion bool :=
  match items with
  | [] => Normal true
  | x :: rest => p x ≫= λ ok : bool, if ok then every p rest else Normal false
  end.

(** [Array.isArray(parsed) && parsed.every(...)] *)
Definition validProject (parsed : json) : Completion bool :=
  match parsed with
  | JArray items => every validFile items
  | _ => Normal false
  end.

(** The view of a validated element as a [FileData]. *)
Definition asFileData (f : json) : FileData :=
  let prop k := match f with JObject fields => assoc k fields | _ => None end in
  {| fileName := match prop "fileName" with Some (JString s) => s | _ => "" end;
     content := match prop "content" with Some (JString s) => s | _ => "" end;
     path := match prop "path" with Some (JString s) => Some s | _ => None end;
     type := match prop "type" with
             | Some (JString "file") => Some file
             | Some (JString "folder") => Some folder
             | _ => None
             end |}.

Definition asFiles (parsed : json) : list FileData :=
  match parsed with
  | JArray items => map asFileData items
  | _ => []
  end.

(** [key.includes('code') || key.includes('project') || key.includes('ai')] *)
Definition projectRelated (key : string) : bool :=
  JS.includes key "code" || JS.includes key "project" || JS.includes key "ai".

(** The loop collecting [keysToRemove] and the removals after it. *)
Definition sweep (storage : gmap string string) : gmap string string :=
  filter (λ kv, JS.truthy kv.1 && projectRelated kv.1 = false) storage.

(** The initialiser of the [files] state: the File Set to start with and the
    storage it leaves. *)
Definition initialFiles `{External} (storage : gmap string string)
    : list FileData * gmap string string :=
  match storage !! PROJECT_KEY with
  | Some saved =>
      if JS.truthy saved then
        match (parsed ← JSON_parse saved;
               ok ← validProject parsed;
               Normal (parsed, ok)) with
        | Normal (parsed, true) => (asFiles parsed, storage)
        | Normal (_, false) => (DEFAULT_FILES, delete PROJECT_KEY storage)
        | Throw => (DEFAULT_FILES, sweep (delete PROJECT_KEY storage))
        end
      else (DEFAULT_FILES, storage)
  | None => (DEFAULT_FILES, storage)
  end.

(** The effect run after a render in which [files] or [activeFileName]
    changed re-validates the pointer (and writes the File Set back under
    [PROJECT_KEY], which no property below depends on). *)
Definition revalidate (a : App) : App :=
  if negb (hasFile (activeFileName a) (files a))
  then setActiveFileName (firstFileName (files a)) a
  else a.

(** ** The workspace handlers ([CodeWorkspace.tsx], [resetProject]) *)

Definition handleContentChange (newContent : option string) (a : App) : App :=
  match newContent with
  | None => a
  | Some c =>
      setFiles (map (λ f, if String.eqb (fileName f) (activeFileName a)
                          then with_content f c else f)) a
  end.

Definition handleCreateFile (fileName : string) (folderPath : option string)
    (a : App) : App :=
  let newFile := {| fileName := fileName; content := ""; type := Some file;
                    path := Some (JS.or_else (default "" folderPath) "") |} in
  setActiveFileName fileName (setFiles (λ currentFiles, currentFiles ++ [newFile]) a).

Definition handleDeleteFile (fileNameToDelete : string) (a : App) : App :=
  let newFiles :=
    filter (λ f, String.eqb (fileName f) fileNameToDelete = false) (files a) in
  let a' := if String.eqb (activeFileName a) fileNameToDelete
            then setActiveFileName (firstFileName newFiles) a
            else a in
  setFiles (λ _, newFiles) a'.

(** Of [resetProject], what it does to the state kept here. *)
Definition resetProject (a : App) : App :=
  setError None (setActiveFileName "" (setFiles (λ _, DEFAULT_FILES) a)).

(** ** The line protocol in the specification's words

    The functions below do not follow the code: they say, over the whole
    text of a stream, which complete lines it has, which of them are
    markers, in which order file names are first seen and which lines are
    routed to which file. The theorems compare the demultiplexer with them. *)

Module Protocol.

(** The complete lines of a text (without their newline) and the partial
    line left after the last newline. *)
Fixpoint cut (s : string) : list string * string :=
  match s with
  | EmptyString => ([], EmptyString)
  | String c s' =>
      let '(ls, rest) := cut s' in
      if Ascii.eqb c JS.LF then (EmptyString :: ls, rest)
      else match ls with
           | [] => ([], String c rest)
           | l :: ls' => (String c l :: ls', rest)
           end
  end.

Definition completeLines (s : string) : list string := (cut s).1.
Definition partialLine (s : string) : string := (cut s).2.

Inductive LineKind :=
| Header (name : string)   (* a marker with a non-empty name *)
| BlankHeader              (* a marker whose name trims to nothing *)
| Text.                    (* any other line *)

Definition classify (line : string) : LineKind :=
  if JS.startsWith line MARKER then
    match JS.trim (JS.drop (String.length MARKER) line) with
    | EmptyString => BlankHeader
    | name => Header name
    end
  else Text.

(** The names the markers of [ls] announce, one per marker. *)
Fixpoint headers (ls : list string) : list string :=
  match ls with
  | [] => []
  | l :: ls' =>
      match classify l with
      | Header n => n :: headers ls'
      | _ => headers ls'
      end
  end.

(** Each name once, at the place of its first occurrence. *)
Fixpoint firstSeen (ns : list string) : list string :=
  match ns with
  | [] => []
  | n :: ns' => n :: filter (λ m, m ≠ n) (firstSeen ns')
  end.

(** The text routed to file [n] by the lines [ls], when the target before
    them is [cur]: every text line that follows a marker for [n] with no
    other marker in between, each with one newline. *)
Fixpoint routed (n : string) (cur : option string) (ls : list string) : string :=
  match ls with
  | [] => EmptyString
  | l :: ls' =>
      match classify l with
      | Header m => routed n (Some m) ls'
      | BlankHeader => routed n cur ls'
      | Text =>
          (if decide (cur = Some n) then l +:+ String JS.LF "" else "")
          +:+ routed n cur ls'
      end
  end.

(** The target after the lines [ls]: the last marker's name. *)
Fixpoint target (cur : option string) (ls : list string) : option string :=
  match ls with
  | [] => cur
  | l :: ls' =>
      match classify l with
      | Header m => target (Some m) ls'
      | _ => target cur ls'
      end
  end.


End Protocol.

(** The whole text of a chunk sequence. *)
Definition joined (cs : list string) : string :=
  foldr String.append "" cs.

(** The pointer invariant of the data model. *)
Definition pointer_ok (a : App) : Prop :=
  activeFileName a = "" ∨ hasFile (activeFileName a) (files a) = true.

(** ** Notions used by the statements *)

Definition emptyApp : App :=
  {| files := []; activeFileName := ""; isLoading := false; error := None |}.

(** Lines that arrive one chunk each: what every line is meant to do, its
    calls run while its own target is the current one. *)
Definition onLines (ls : list string) (p : App * option string) : App * option string :=
  fold_left (λ p l, onLine l p.1 p.2) ls p.

Definition cur_ok (cur : option string) (fs : list FileData) : Prop :=
  match cur with
  | Some c => c ≠ "" ∧ hasFile c fs = true
  | None => True
  end.

(** The File Set once the markers of [ls] have been seen. *)
Definition grown (fs : list FileData) (ls : list string) : list FileData :=
  fs ++ map fileData
          (filter (λ n, hasFile n fs = false)
                  (Protocol.firstSeen (Protocol.headers ls))).

Definition receive (cur : option string) (ls : list string) (f : FileData) : FileData :=
  with_content f (content f +:+ Protocol.routed (fileName f) cur ls).

(** The structure the specification asks of a stored value: an array of
    objects, each with a string [fileName] and a string [content]. *)
Definition hasString (k : string) (fields : list (string * json)) : bool :=
  match assoc k fields with
  | Some (JString _) => true
  | _ => false
  end.

Definition wellFormedFile (f : json) : bool :=
  match f with
  | JObject fields => hasString "fileName" fields && hasString "content" fields
  | _ => false
  end.

Definition wellFormedProject (parsed : json) : bool :=
  match parsed with
  | JArray items => forallb wellFormedFile items
  | _ => false
  end.

(** What the formatting pass makes of a record: the same name, and the same
    content unless the pretty-printer accepted it and returned another. *)
Definition reformatted (E : External) (f g : FileData) : Prop :=
  fileName g = fileName f
  ∧ (content g = content f
     ∨ ∃ parser, getParser (fileName f) = Some parser
                 ∧ prettier_format parser (content f) = Normal (content g)).

(** The changes the File Set and the pointer go through. *)
Inductive change : App → App → Prop :=
| change_content c a : change a (handleContentChange c a)
| change_create n p a : change a (handleCreateFile n p a)
| change_delete n a : change a (handleDeleteFile n a)
| change_reset a : change a (resetProject a)
| change_line l a cur : change a (onLine l a cur).1
| change_chunk text r : change (st r) (st (onChunk text r))
| change_flush r : change (st r) (flush r)
| change_formatted (E : External) a : change a (formatted a)
| change_effect a : change a (revalidate a).

(** ** Sample inputs *)

(** Lines joined into a text, each with its newline. *)
Definition unlines (ls : list string) : string :=
  foldr (λ l t, l +:+ String JS.LF t) "" ls.

Definition sample : string :=
  unlines [">>>FILE: a.txt"; "hello"; "world"; ">>>FILE: b.txt"; "foo"].

Definition sampleLines : list string :=
  [">>>FILE: a.txt"; "hello"; "world"; ">>>FILE: b.txt"; "foo"].

Definition oneFile (n c : string) : FileData :=
  {| fileName := n; content := c; path := Some ""; type := Some file |}.

(** An excerpt of what the collaborators do, for the concrete cases below:
    the pretty-printer on one style sheet, [JSON.parse] on three texts. *)
Definition dq : string := String (ascii_of_nat 34) EmptyString.

Definition savedProject : string :=
  "[{" +:+ dq +:+ "fileName" +:+ dq +:+ ":" +:+ dq +:+ "a.txt" +:+ dq +:+ ","
  +:+ dq +:+ "content" +:+ dq +:+ ":" +:+ dq +:+ "x" +:+ dq +:+ "}]".

Definition excerpt : External := {|
  prettier_format parser content :=
    match parser with
    | css =>
        if String.eqb content (unlines ["a{color:red}"])
        then Normal (unlines ["a {"; "  color: red;"; "}"])
        else Throw
    | _ => Throw
    end;
  JSON_parse text :=
    if String.eqb text "5" then Normal (JNumber 5)
    else if String.eqb text "[null]" then Normal (JArray [JNull])
    else if String.eqb text savedProject
    then Normal (JArray [JObject [("fileName", JString "a.txt");
                                  ("content", JString "x")]])
    else Throw
|}.

Definition strayStorage : gmap string string :=
  {[ "code-project" := "5"; "ai-theme" := "dark" ]}.

Definition nullStorage : gmap string string :=
  {[ "code-project" := "[null]"; "ai-theme" := "dark"; "volume" := "7" ]}.

Definition goodStorage : gmap string string :=
  {[ "code-project" := savedProject; "ai-theme" := "dark" ]}.

Definition failingStream : Stream :=
  mkStream [unlines [">>>FILE: s.css"; "a{color:red}"]] (Some (ErrorObject "503")).

(** ** The chunks of a stream, line by line *)

(** The calls of lines read one after the other, and the target they leave. *)
Fixpoint readLines (ls : list string) (cur : option string) : list Call * option string :=
  match ls with
  | [] => ([], cur)
  | l :: ls' =>
      let '(calls, cur') := readLine l cur in
      let '(more, last) := readLines ls' cur' in
      (calls ++ more, last)
  end.

(** The lines one chunk completes: read in a row, then their calls are run. *)
Definition onBatch (ls : list string) (p : App * option string) : App * option string :=
  let '(calls, cur) := readLines ls p.2 in
  (render cur calls p.1, cur).

Definition onBatches (bs : list (list string)) (p : App * option string)
    : App * option string :=
  fold_left (λ p ls, onBatch ls p) bs p.

(** The lines each chunk of [cs] completes, [buf] being the buffer before
    the first of them. *)
Fixpoint batches (buf : string) (cs : list string) : list (list string) :=
  match cs with
  | [] => []
  | c :: cs' =>
      Protocol.completeLines (buf +:+ c)
      :: batches (Protocol.partialLine (buf +:+ c)) cs'
  end.


(** Every line with its newline, as a chunk of its own. *)
Definition lineByLine (ls : list string) : list string :=
  map (λ l, l +:+ String JS.LF "") ls.

(** [gs] is [fs] with text appended to contents, then records whose names
    are not in [fs]. *)
Definition extends (fs gs : list FileData) : Prop :=
  ∃ (more : FileData → string) (added : list FileData),
    gs = map (λ f, with_content f (content f +:+ more f)) fs ++ added
    ∧ Forall (λ g, hasFile (fileName g) fs = false) added.

(** Every content is made of lines of [ls], in their order, none a marker. *)
Definition wholeLines (ls : list string) (fs : list FileData) : Prop :=
  Forall (λ f, ∃ ks, content f = unlines ks
                     ∧ sublist ks ls
                     ∧ Forall (λ l, JS.startsWith l MARKER = false) ks) fs.

(** ** The wire format of a project

    What the system instruction asks the service to send: for each file a
    marker line, then the lines of the file. *)




(** A line of file text: no newline inside, and not a marker. *)
Definition plainLine (l : string) : Prop :=
  JS.indexOf JS.LF l = None ∧ JS.startsWith l MARKER = false.



(** ** The storage half of [resetProject] *)

(** [localStorage.removeItem('code-project')], then the keys collected in
    [keysToRemove] are removed. *)
Definition resetStorage (storage : gmap string string) : gmap string string :=
  sweep (delete PROJECT_KEY storage).

(** ** Persisting the File Set and starting from it *)

(** What [JSON.parse] gives back for a record that [JSON.stringify] wrote:
    an object with the properties the record has, the absent ones left
    out. *)
Definition toJSONFile (f : FileData) : json :=
  JObject ([("fileName", JString (fileName f)); ("content", JString (content f))]
           ++ match type f with
              | Some file => [("type", JString "file")]
              | Some folder => [("type", JString "folder")]
              | None => []
              end
           ++ match path f with
              | Some p => [("path", JString p)]
              | None => []
              end).

Definition toJSON (fs : list FileData) : json := JArray (map toJSONFile fs).

(** The persistence half of the effect:
    [localStorage.setItem('code-project', JSON.stringify(files))], for a
    given [JSON.stringify]. *)
Definition persist (stringify : list FileData → string) (a : App)
    (storage : gmap string string) : gmap string string :=
  <[PROJECT_KEY := stringify (files a)]> storage.

(** The state the component starts in: the initialisers of [files],
    [activeFileName], [isLoading] and [error]. *)
Definition initialApp `{External} (storage : gmap string string) : App :=
  let files := (initialFiles storage).1 in
  {| files := files; activeFileName := firstFileName files;
     isLoading := false; error := None |}.

(** The states the application goes through. *)
Inductive reachable `{External} (storage : gmap string string) : App → Prop :=
| reach_initial : reachable storage (initialApp storage)
| reach_change a a' : reachable storage a → change a a' → reachable storage a'.

(** ** The new-file dialog ([Modals.tsx], [NewFileModal]) *)

(** [toLowerCase] on one code unit of the 8-bit range: A to Z, and the
    capital letters from U+00C0 to U+00DE (U+00D7 is the multiplication
    sign). *)
Definition lowerUnit (c : ascii) : ascii :=
  let n := nat_of_ascii c in
  if ((65 <=? n) && (n <=? 90))
     || ((192 <=? n) && (n <=? 222) && negb (n =? 215))
  then ascii_of_nat (n + 32)
  else c.

Fixpoint toLowerCase (s : string) : string :=
  match s with
  | EmptyString => EmptyString
  | String c s' => String (lowerUnit c) (toLowerCase s')
  end.

(** How the dialog's [handleSubmit] ends: with an error shown, or by calling
    [onCreate]. *)
Inductive Submission :=
| Refused (error : string)
| Create (fileName : string) (folderPath : option string).

Definition submitNewFile (fileName folderPath : string)
    (existingFiles : list string) : Submission :=
  let trimmedName := JS.trim fileName in
  let trimmedPath := JS.trim folderPath in
  if negb (JS.truthy trimmedName) then Refused "File name cannot be empty."
  else
    let fullPath := if JS.truthy trimmedPath
                    then trimmedPath +:+ "/" +:+ trimmedName
                    else trimmedName in
    if existsb (λ f, String.eqb (toLowerCase f) (toLowerCase fullPath))
               existingFiles
    then Refused ("A file named " +:+ dq +:+ fullPath +:+ dq +:+ " already exists.")
    else Create trimmedName
                (if JS.truthy trimmedPath then Some trimmedPath else None).

(** The dialog as the workspace mounts it: [existingFiles] are the names
    of the File Set, [onCreate] is [handleCreateFile]. *)
Definition createFromDialog (name folder : string) (a : App) : App :=
  match submitNewFile name folder (map fileName (files a)) with
  | Create n p => handleCreateFile n p a
  | Refused _ => a
  end.

(** ** The preview ([htmlContent]): what the document is assembled from

    [flattenFiles] returns the File Set itself, no record of it having
    children. The document is a fixed template around the values selected
    below (React page), a fixed placeholder (no content), or the first markup
    file with the style and script text put in by textual replacement (plain
    page). The selections are embedded; the templates and the regular
    expressions that clean the texts are not. *)

(** [l.join(sep)] *)
Fixpoint join (sep : string) (l : list string) : string :=
  match l with
  | [] => ""
  | [x] => x
  | x :: rest => x +:+ sep +:+ join sep rest
  end.

Definition isReactFile (f : FileData) : bool :=
  JS.endsWith (fileName f) ".jsx"
  || JS.endsWith (fileName f) ".tsx"
  || (JS.endsWith (fileName f) ".js" && JS.includes (content f) "React").

Definition isEntryName (f : FileData) : bool :=
  JS.includes (fileName f) "App"
  || JS.includes (fileName f) "index"
  || JS.includes (fileName f) "main".

(** [reactFiles.find(...) || reactFiles[0]] *)
Definition mainComponent (reactFiles : list FileData) : option FileData :=
  match List.find isEntryName reactFiles with
  | Some f => Some f
  | None => head reactFiles
  end.

(** [name.replace(/\.(jsx?|tsx?)$/, '')]: a match ends at the end of the name
    and is one of the four extensions, so it is the extension the name ends
    with, if any. *)
Definition stripScriptExtension (name : string) : string :=
  if JS.endsWith name ".jsx" || JS.endsWith name ".tsx"
  then JS.take (String.length name - 4) name
  else if JS.endsWith name ".js" || JS.endsWith name ".ts"
  then JS.take (String.length name - 3) name
  else name.

Definition isScriptFile (f : FileData) : bool :=
  JS.endsWith (fileName f) ".js" || JS.endsWith (fileName f) ".jsx"
  || JS.endsWith (fileName f) ".ts" || JS.endsWith (fileName f) ".tsx".

Definition isStyleFile (f : FileData) : bool := JS.endsWith (fileName f) ".css".

Definition isMarkupFile (f : FileData) : bool := JS.endsWith (fileName f) ".html".

Definition isPlainScript (f : FileData) : bool :=
  JS.endsWith (fileName f) ".js" && negb (JS.includes (content f) "React").

Definition cssContent (flatFiles : list FileData) : string :=
  join (String JS.LF "") (map content (filter (λ f, isStyleFile f = true) flatFiles)).

Inductive Preview :=
| ReactPage (style : string) (sources : list string) (entry : string)
| NoContentPage
| PlainPage (markup : string) (style script : option string).

Definition htmlContent (files : list FileData) : Preview :=
  let flatFiles := files in
  let reactFiles := filter (λ f, isReactFile f = true) flatFiles in
  match mainComponent reactFiles with
  | Some main =>
      ReactPage (cssContent flatFiles)
                (map content (filter (λ f, isScriptFile f = true) flatFiles))
                (stripScriptExtension (fileName main))
  | None =>
      match List.find isMarkupFile flatFiles with
      | None => NoContentPage
      | Some htmlFile =>
          let cssFiles := filter (λ f, isStyleFile f = true) flatFiles in
          let jsFiles := filter (λ f, isPlainScript f = true) flatFiles in
          PlainPage (content htmlFile)
                    (if 0 <? length cssFiles then Some (cssContent flatFiles) else None)
                    (if 0 <? length jsFiles
                     then Some (join (";" +:+ String JS.LF "") (map content jsFiles))
                     else None)
      end
  end.

(** ** The editor language ([MonacoEditor], [getLanguage]) *)

(** [s.split(c)] for a one-character separator. *)
Fixpoint split (sep : ascii) (s : string) : list string :=
  match s with
  | EmptyString => [EmptyString]
  | String c s' =>
      if Ascii.eqb c sep then EmptyString :: split sep s'
      else match split sep s' with
           | h :: t => String c h :: t
           | [] => [String c EmptyString]
           end
  end.

Definition getLanguage (fileName : string) : string :=
  match toLowerCase <$> last (split "."%char fileName) with
  | Some "js" | Some "jsx" => "javascript"
  | Some "ts" | Some "tsx" => "typescript"
  | Some "css" => "css"
  | Some "html" => "html"
  | Some "json" => "json"
  | Some "md" => "markdown"
  | _ => "plaintext"
  end.

(** ** The folder tree of the side bar ([buildTreeStructure])

    A folder object is created once, when its key is put into [folderMap],
    and it is reached only through that key or through the array it was
    pushed on. The embedding names it by its key: the arrays hold keys for
    folders and records for files, the map holds the folder objects. *)

Inductive Child :=
| Sub (key : string)
| Leaf (f : FileData).

Record FolderNode := mkFolderNode {
  folderName : string;
  folderParent : string;
  children : list Child
}.

Record TreeView := mkTreeView {
  tree : list Child;
  folderMap : gmap string FolderNode
}.

(** [parent.children.push(c)] on the folder object stored under [k]. *)
Definition pushChild (k : string) (c : Child) (m : gmap string FolderNode)
    : gmap string FolderNode :=
  match m !! k with
  | Some parent =>
      <[k := {| folderName := folderName parent;
                folderParent := folderParent parent;
                children := children parent ++ [c] |}]> m
  | None => m
  end.

(** The body of [pathParts.forEach]: the tree so far and [currentPath]. *)
Definition addFolder (state : TreeView * string) (part : string)
    : TreeView * string :=
  let '(t, currentPath) := state in
  let folderPath := if JS.truthy currentPath
                    then currentPath +:+ "/" +:+ part
                    else part in
  let t' :=
    match folderMap t !! folderPath with
    | Some _ => t
    | None =>
        let m := <[folderPath := {| folderName := part;
                                    folderParent := currentPath;
                                    children := [] |}]> (folderMap t) in
        if String.eqb currentPath ""
        then {| tree := tree t ++ [Sub folderPath]; folderMap := m |}
        else {| tree := tree t; folderMap := pushChild currentPath (Sub folderPath) m |}
    end in
  (t', folderPath).

(** First pass, for one file. *)
Definition addFolders (t : TreeView) (f : FileData) : TreeView :=
  if JS.truthy_opt (path f)
  then (fold_left addFolder (split "/"%char (default "" (path f))) (t, "")).1
  else t.

(** Second pass, for one file. *)
Definition addFile_to_tree (t : TreeView) (f : FileData) : TreeView :=
  if JS.truthy_opt (path f)
  then {| tree := tree t;
          folderMap := pushChild (default "" (path f)) (Leaf f) (folderMap t) |}
  else {| tree := tree t ++ [Leaf f]; folderMap := folderMap t |}.

Definition buildTreeStructure (fileList : list FileData) : TreeView :=
  fold_left addFile_to_tree fileList
    (fold_left addFolders fileList {| tree := []; folderMap := ∅ |}).

(** The file records among the entries of an array. *)
Definition leaves (cs : list Child) : list FileData :=
  omap (λ c, match c with Leaf f => Some f | Sub _ => None end) cs.

(** The keys [folderPath] takes while the parts of one path are walked. *)
Fixpoint folderKeys (currentPath : string) (parts : list string) : list string :=
  match parts with
  | [] => []
  | part :: rest =>
      let folderPath := if JS.truthy currentPath
                        then currentPath +:+ "/" +:+ part
                        else part in
      folderPath :: folderKeys folderPath rest
  end.

(** No array of the tree holds a file record yet. *)
Definition noLeaves (t : TreeView) : Prop :=
  leaves (tree t) = []
  ∧ ∀ k n, folderMap t !! k = Some n → leaves (children n) = [].

(** * Properties *)

(** ** The loop and its buffer *)

Lemma drain_step (p : list Call * Demux) :
  drain p =
  match JS.indexOf JS.LF (buffer p.2) with
  | Some lineEndIndex => drain (iteration lineEndIndex p)
  | None => p
  end.
Proof.
  rewrite drain_equation_1.
  destruct (inspect (JS.indexOf JS.LF (buffer p.2))) as [[i|] e].
  - transitivity (drain (iteration i p)); [reflexivity|].
    symmetry. by destruct (JS.indexOf JS.LF (buffer p.2)); simplify_eq.
  - transitivity p; [reflexivity|].
    symmetry. by destruct (JS.indexOf JS.LF (buffer p.2)); simplify_eq.
Qed.

#[local] Arguments String.append !_ _ / : simpl nomatch.

Section Strings.

Implicit Types (s t : string) (c : ascii) (i : nat).

Lemma append_nil_r s : s +:+ "" = s.
Proof. induction s; simpl; congruence. Qed.

Lemma append_assoc s t u : (s +:+ t) +:+ u = s +:+ (t +:+ u).
Proof. induction s; simpl; congruence. Qed.

Lemma substring_0 s i : JS.substring s 0 i = JS.take i s.
Proof. unfold JS.substring. by rewrite Nat.max_0_l, Nat.min_0_l, Nat.sub_0_r. Qed.

Lemma drop_shorter c s i :
  JS.indexOf c s = Some i → String.length (JS.drop (i + 1) s) < String.length s.
Proof.
  revert i. induction s as [|a s IH]; intros i; simpl; [done|].
  destruct (Ascii.eqb a c).
  - intros [= <-]. simpl. lia.
  - destruct (JS.indexOf c s) as [j|]; simpl; [|done].
    intros [= <-]. specialize (IH j eq_refl). simpl. lia.
Qed.

Lemma indexOf_app_None c s t :
  JS.indexOf c s = None → JS.indexOf c t = None → JS.indexOf c (s +:+ t) = None.
Proof.
  intros Hs Ht. induction s as [|a s IH]; simpl in *; [done|].
  destruct (Ascii.eqb a c); [done|].
  destruct (JS.indexOf c s); [done|]. by rewrite IH.
Qed.

End Strings.

Lemma iteration_shorter (p : list Call * Demux) i :
  JS.indexOf JS.LF (buffer p.2) = Some i →
  String.length (buffer (iteration i p).2) < String.length (buffer p.2).
Proof.
  intros Hi. unfold iteration. destruct (readLine _ _). simpl.
  by apply drop_shorter with JS.LF.
Qed.

(** Induction along the iterations of the loop. *)
Lemma drain_ind (P : list Call * Demux → Prop) :
  (∀ p, JS.indexOf JS.LF (buffer p.2) = None → P p) →
  (∀ p i, JS.indexOf JS.LF (buffer p.2) = Some i → P (iteration i p) → P p) →
  ∀ p, P p.
Proof.
  intros Hnone Hsome p.
  remember (String.length (buffer p.2)) as n eqn:Hn. revert p Hn.
  induction (lt_wf n) as [n _ IH]. intros p ->.
  destruct (JS.indexOf JS.LF (buffer p.2)) as [i|] eqn:Hi.
  - apply (Hsome p i Hi). eapply IH; [|reflexivity]. by apply iteration_shorter.
  - by apply Hnone.
Qed.

(** ** The loop against the line protocol *)

Lemma cut_no_index (s : string) :
  JS.indexOf JS.LF s = None → Protocol.cut s = ([], s).
Proof.
  induction s as [|a s IH]; simpl; [done|].
  destruct (Ascii.eqb a JS.LF); [done|].
  destruct (JS.indexOf JS.LF s); simpl; [done|].
  intros _. by rewrite IH.
Qed.

Lemma cut_index (s : string) i :
  JS.indexOf JS.LF s = Some i →
  Protocol.cut s
  = (JS.take i s :: Protocol.completeLines (JS.drop (i + 1) s),
     Protocol.partialLine (JS.drop (i + 1) s)).
Proof.
  unfold Protocol.completeLines, Protocol.partialLine.
  revert i. induction s as [|a s IH]; intros i; simpl; [done|].
  destruct (Ascii.eqb a JS.LF) eqn:Ha.
  - intros [= <-]. simpl. by destruct (Protocol.cut s).
  - destruct (JS.indexOf JS.LF s) as [j|]; simpl; [|done].
    intros [= <-]. rewrite (IH j eq_refl). simpl. reflexivity.
Qed.

(** What follows the last newline holds no newline. *)
Lemma partialLine_no_LF (s : string) :
  JS.indexOf JS.LF (Protocol.partialLine s) = None.
Proof.
  unfold Protocol.partialLine.
  induction s as [|c s IH]; simpl; [done|].
  destruct (Protocol.cut s) as [ls rest]. simpl in *.
  destruct (Ascii.eqb c JS.LF) eqn:Hc; [done|].
  destruct ls; simpl; [|done]. by rewrite Hc, IH.
Qed.

(** The lines of a text that arrives in two parts: the lines of the first
    part, then the lines of what the first part left with the second. *)
Lemma cut_app (s t : string) :
  Protocol.cut (s +:+ t)
  = ((Protocol.cut s).1 ++ (Protocol.cut ((Protocol.cut s).2 +:+ t)).1,
     (Protocol.cut ((Protocol.cut s).2 +:+ t)).2).
Proof.
  induction s as [|c s IH]; simpl.
  - by destruct (Protocol.cut t).
  - rewrite IH. destruct (Protocol.cut s) as [ls rest]. simpl.
    destruct (Ascii.eqb c JS.LF) eqn:Hc; [done|].
    destruct ls as [|l ls]; simpl; [|done].
    rewrite Hc. by destruct (Protocol.cut (rest +:+ t)) as [[|l ls] rest'].
Qed.

Lemma readLines_cons (l : string) (ls : list string) (cur : option string) :
  readLines (l :: ls) cur
  = ((readLine l cur).1 ++ (readLines ls (readLine l cur).2).1,
     (readLines ls (readLine l cur).2).2).
Proof. simpl. destruct (readLine l cur). by destruct (readLines ls _). Qed.

(** The loop reads the complete lines of the buffer, in their order, and
    leaves the partial line. *)
Lemma drain_lines (p : list Call * Demux) :
  drain p
  = (p.1 ++ (readLines (Protocol.completeLines (buffer p.2)) (currentFileName p.2)).1,
     {| st := st p.2;
        currentFileName :=
          (readLines (Protocol.completeLines (buffer p.2)) (currentFileName p.2)).2;
        buffer := Protocol.partialLine (buffer p.2) |}).
Proof.
  induction p as [p Hi|p i Hi IH] using drain_ind.
  - rewrite drain_step, Hi.
    unfold Protocol.completeLines, Protocol.partialLine.
    rewrite (cut_no_index _ Hi). simpl. rewrite app_nil_r.
    by destruct p as [q []].
  - rewrite (drain_step p), Hi, IH.
    unfold Protocol.completeLines at 3 4, Protocol.partialLine at 2.
    rewrite (cut_index _ _ Hi). cbn [fst snd]. rewrite readLines_cons.
    unfold iteration, JS.substringFrom. rewrite substring_0.
    destruct (readLine _ _) as [calls cur]. simpl. by rewrite app_assoc.
Qed.

Lemma onChunk_batch (text : string) (r : Demux) :
  onChunk text r
  = {| st := (onBatch (Protocol.completeLines (buffer r +:+ text))
                      (st r, currentFileName r)).1;
       currentFileName := (onBatch (Protocol.completeLines (buffer r +:+ text))
                                   (st r, currentFileName r)).2;
       buffer := Protocol.partialLine (buffer r +:+ text) |}.
Proof.
  unfold onChunk, onBatch. rewrite drain_lines. simpl.
  by destruct (readLines _ _).
Qed.

Lemma feed_cons (c : string) (cs : list string) (r : Demux) :
  feed (c :: cs) r = feed cs (onChunk c r).
Proof. reflexivity. Qed.

Lemma feed_app (cs1 cs2 : list string) (r : Demux) :
  feed (cs1 ++ cs2) r = feed cs2 (feed cs1 r).
Proof. unfold feed. apply fold_left_app. Qed.

(** The state after the chunks: batch after batch. *)
Lemma feed_batches (cs : list string) (r : Demux) :
  (st (feed cs r), currentFileName (feed cs r))
  = onBatches (batches (buffer r) cs) (st r, currentFileName r).
Proof.
  revert r. induction cs as [|c cs IH]; intros r; [done|].
  rewrite feed_cons, IH, onChunk_batch. simpl.
  by destruct (onBatch _ _).
Qed.

Lemma feed_buffer_cut (cs : list string) (r : Demux) :
  JS.indexOf JS.LF (buffer r) = None →
  buffer (feed cs r) = Protocol.partialLine (buffer r +:+ joined cs).
Proof.
  revert r. induction cs as [|c cs IH]; intros r Hr.
  - simpl. unfold Protocol.partialLine.
    by rewrite append_nil_r, (cut_no_index _ Hr).
  - rewrite feed_cons, IH; rewrite onChunk_batch; simpl;
      [|apply partialLine_no_LF].
    unfold joined. simpl. fold (joined cs).
    unfold Protocol.partialLine.
    by rewrite <- append_assoc, (cut_app (buffer r +:+ c)).
Qed.

Lemma feed_buffer (cs : list string) (a : App) :
  JS.indexOf JS.LF (buffer (feed cs (start a))) = None.
Proof. rewrite feed_buffer_cut by done. apply partialLine_no_LF. Qed.

(** Together the batches are the complete lines of the whole text. *)
Lemma batches_concat (cs : list string) (buf : string) :
  JS.indexOf JS.LF buf = None →
  concat (batches buf cs) = Protocol.completeLines (buf +:+ joined cs).
Proof.
  revert buf. induction cs as [|c cs IH]; intros buf Hbuf.
  - simpl. unfold Protocol.completeLines.
    by rewrite append_nil_r, (cut_no_index _ Hbuf).
  - simpl. rewrite IH by apply partialLine_no_LF.
    unfold joined. simpl. fold (joined cs).
    unfold Protocol.completeLines, Protocol.partialLine.
    by rewrite <- (append_assoc buf), (cut_app (buf +:+ c)).
Qed.

Lemma truthy_spec (s : string) : JS.truthy s = true ↔ s ≠ "".
Proof. by destruct s. Qed.

Lemma readLine_classify (l : string) (cur : option string) :
  readLine l cur
  = match Protocol.classify l with
    | Protocol.Header n => ([AddFile n; Activate n], Some n)
    | Protocol.BlankHeader => ([], cur)
    | Protocol.Text =>
        if JS.truthy_opt cur
        then ([AppendLine (l +:+ String JS.LF "")], cur)
        else ([], cur)
    end.
Proof.
  unfold readLine, Protocol.classify, JS.substringFrom.
  destruct (JS.startsWith l MARKER); [|done].
  by destruct (JS.trim _).
Qed.

Lemma onLine_classify (l : string) (a : App) (cur : option string) :
  onLine l a cur
  = match Protocol.classify l with
    | Protocol.Header n =>
        (setActiveFileName n (setFiles (addFile n) a), Some n)
    | Protocol.BlankHeader => (a, cur)
    | Protocol.Text =>
        if JS.truthy_opt cur
        then (setFiles (appendTo (default "" cur) (l +:+ String JS.LF "")) a, cur)
        else (a, cur)
    end.
Proof.
  unfold onLine. rewrite readLine_classify.
  destruct (Protocol.classify l); [done..|].
  destruct cur as [c|]; [|done]. simpl. by destruct (JS.truthy c).
Qed.



Lemma render_app (t : option string) (c1 c2 : list Call) (a : App) :
  render t (c1 ++ c2) a = render t c2 (render t c1 a).
Proof. apply fold_left_app. Qed.

Lemma hasFile_app n fs gs : hasFile n (fs ++ gs) = hasFile n fs || hasFile n gs.
Proof. apply existsb_app. Qed.

Lemma hasFile_appendTo n c x fs : hasFile n (appendTo c x fs) = hasFile n fs.
Proof.
  unfold hasFile, appendTo. induction fs as [|f fs IH]; simpl; [done|].
  rewrite IH. by destruct (String.eqb (fileName f) c).
Qed.

Lemma hasFile_true n fs : hasFile n fs = true ↔ n ∈ map fileName fs.
Proof.
  unfold hasFile. rewrite existsb_exists, list_elem_of_In, in_map_iff.
  split.
  - intros (f & Hf & Heq). apply String.eqb_eq in Heq. eauto.
  - intros (f & Heq & Hf). exists f. split; [done|]. by apply String.eqb_eq.
Qed.

Lemma filter_known m fs (l : list string) :
  hasFile m fs = true →
  filter (λ n, hasFile n fs = false) (filter (λ x, x ≠ m) l)
  = filter (λ n, hasFile n fs = false) l.
Proof.
  intros Hm. induction l as [|x l IH]; [done|].
  rewrite !filter_cons. destruct (decide (x ≠ m)) as [Hx|Hx].
  - rewrite filter_cons. by rewrite IH.
  - apply dec_stable in Hx as ->. rewrite IH.
    destruct (decide (hasFile m fs = false)); [congruence|done].
Qed.

Lemma filter_fresh m fs (l : list string) :
  filter (λ n, hasFile n (fs ++ [fileData m]) = false) l
  = filter (λ n, hasFile n fs = false) (filter (λ x, x ≠ m) l).
Proof.
  induction l as [|x l IH]; [done|].
  rewrite !filter_cons, IH.
  rewrite hasFile_app. simpl. rewrite orb_false_r.
  destruct (decide (x ≠ m)) as [Hx|Hx].
  - rewrite filter_cons.
    assert (String.eqb m x = false) as -> by (apply String.eqb_neq; congruence).
    rewrite orb_false_r. by destruct (decide (hasFile x fs = false)).
  - apply dec_stable in Hx as ->. rewrite String.eqb_refl, orb_true_r.
    by destruct (decide (true = false)).
Qed.

Lemma with_content_id f : with_content f (content f) = f.
Proof. by destruct f. Qed.

Lemma onLines_cons l ls p : onLines (l :: ls) p = onLines ls (onLine l p.1 p.2).
Proof. reflexivity. Qed.

Lemma classify_Header_nonempty l n : Protocol.classify l = Protocol.Header n → n ≠ "".
Proof.
  unfold Protocol.classify. destruct (JS.startsWith l MARKER); [|done].
  destruct (JS.trim _); [done|]. by intros [= <-].
Qed.

Lemma onLines_spec (ls : list string) (a : App) (cur : option string) :
  cur_ok cur (files a) →
  files (onLines ls (a, cur)).1 = map (receive cur ls) (grown (files a) ls)
  ∧ (onLines ls (a, cur)).2 = Protocol.target cur ls
  ∧ cur_ok (onLines ls (a, cur)).2 (files (onLines ls (a, cur)).1).
Proof.
  revert a cur. induction ls as [|l ls IH]; intros a cur Hcur.
  - simpl. unfold grown. simpl. rewrite app_nil_r. split; [|done].
    rewrite <- (map_id (files a)) at 1. apply map_ext. intros f.
    unfold receive. simpl. by rewrite append_nil_r, with_content_id.
  - rewrite onLines_cons, onLine_classify. unfold grown, receive. simpl.
    destruct (Protocol.classify l) as [n| |] eqn:Hl.
    + (* a marker *)
      apply classify_Header_nonempty in Hl as Hne.
      destruct (IH (setActiveFileName n (setFiles (addFile n) a)) (Some n))
        as (IH1 & IH2 & IH3).
      { split; [done|]. simpl. unfold addFile.
        destruct (hasFile n (files a)) eqn:Hn; [done|].
        rewrite hasFile_app. simpl. by rewrite String.eqb_refl, orb_true_r. }
      split; [|by split].
      etrans; [exact IH1|]. unfold grown, receive. simpl. unfold addFile.
      rewrite filter_cons.
      destruct (hasFile n (files a)) eqn:Hn.
      * destruct (decide _) as [|_]; [congruence|].
        by rewrite filter_known.
      * destruct (decide _) as [_|]; [|congruence].
        simpl. by rewrite filter_fresh, <- app_assoc.
    + (* a marker without a name *)
      apply (IH a cur Hcur).
    + (* a line of text *)
      destruct cur as [c|]; simpl.
      * destruct Hcur as [Hc Hin]. apply truthy_spec in Hc as Hc'. rewrite Hc'.
        destruct (IH (setFiles (appendTo c (l +:+ String JS.LF "")) a) (Some c))
          as (IH1 & IH2 & IH3).
        { split; [done|]. simpl. by rewrite hasFile_appendTo. }
        split; [|by split].
        etrans; [exact IH1|]. unfold grown, receive. simpl.
        rewrite !map_app. f_equal.
        -- unfold appendTo. rewrite map_map. apply map_ext. intros f.
           destruct (String.eqb (fileName f) c) eqn:Hf.
           ++ apply String.eqb_eq in Hf as <-. simpl.
              destruct (decide _) as [_|]; [|congruence].
              unfold with_content. simpl. by rewrite !append_assoc.
           ++ apply String.eqb_neq in Hf.
              destruct (decide _) as [|_]; [congruence|done].
        -- rewrite (list_filter_iff _ (λ n, hasFile n (files a) = false));
             [|intros n; by rewrite hasFile_appendTo].
           apply map_ext_in. intros f Hf. apply in_map_iff in Hf as (n & <- & Hn).
           apply list_elem_of_In, list_elem_of_filter in Hn as [Hn _]. simpl.
           destruct (decide _) as [[= ->]|_]; [congruence|done].
      * apply (IH a None I).
Qed.

Lemma flush_spec (r : Demux) :
  cur_ok (currentFileName r) (files (st r)) →
  files (flush r)
  = map (λ f, with_content f
                (content f +:+
                 (if decide (currentFileName r = Some (fileName f))
                  then buffer r else "")))
        (files (st r)).
Proof.
  intros Hcur. unfold flush.
  destruct (currentFileName r) as [c|]; simpl.
  - destruct Hcur as [Hc _]. apply truthy_spec in Hc as ->. simpl.
    destruct (buffer r) as [|x b] eqn:Hb; simpl.
    + rewrite <- (map_id (files (st r))) at 1. apply map_ext. intros f.
      destruct (decide _); by rewrite append_nil_r, with_content_id.
    + unfold appendTo. apply map_ext. intros f.
      destruct (String.eqb (fileName f) c) eqn:Hf.
      * apply String.eqb_eq in Hf as <-. by destruct (decide _).
      * apply String.eqb_neq in Hf.
        destruct (decide _) as [[= ->]|_]; [done|].
        by rewrite append_nil_r, with_content_id.
  - rewrite <- (map_id (files (st r))) at 1. apply map_ext. intros f.
    by rewrite append_nil_r, with_content_id.
Qed.



Lemma hasFile_same_names n (fs gs : list FileData) :
  map fileName gs = map fileName fs → hasFile n gs = hasFile n fs.
Proof.
  intros H. apply eq_true_iff_eq. by rewrite !hasFile_true, H.
Qed.

Lemma names_appendTo (c x : string) (fs : list FileData) :
  map fileName (appendTo c x fs) = map fileName fs.
Proof.
  unfold appendTo. rewrite map_map. apply map_ext. intros f.
  by destruct (String.eqb _ _).
Qed.

Lemma hasFile_addFile (n : string) (fs : list FileData) :
  hasFile n (addFile n fs) = true.
Proof.
  unfold addFile. destruct (hasFile n fs) eqn:Hn; [done|].
  rewrite hasFile_app. simpl. by rewrite String.eqb_refl, orb_true_r.
Qed.

(** ** The queued calls *)

Lemma hasFile_runCall t n (a : App) (c : Call) :
  hasFile n (files a) = true → hasFile n (files (runCall t a c)) = true.
Proof.
  intros Hn. destruct c as [m|m|x]; simpl; [|done|].
  - unfold addFile. destruct (hasFile m (files a)); [done|].
    by rewrite hasFile_app, Hn.
  - destruct t; [|done]. simpl. by rewrite hasFile_appendTo.
Qed.

Lemma hasFile_render t n (calls : list Call) (a : App) :
  hasFile n (files a) = true → hasFile n (files (render t calls a)) = true.
Proof.
  revert a. induction calls as [|c calls IH]; intros a Hn; [done|].
  apply IH. by apply hasFile_runCall.
Qed.

Lemma render_adds t n (calls : list Call) (a : App) :
  AddFile n ∈ calls → hasFile n (files (render t calls a)) = true.
Proof.
  revert a. induction calls as [|c calls IH]; intros a Hin.
  - by apply elem_of_nil in Hin.
  - apply elem_of_cons in Hin as [<-|Hin]; [|by apply IH].
    change (render t (AddFile n :: calls) a)
      with (render t calls (runCall t a (AddFile n))).
    apply hasFile_render. apply hasFile_addFile.
Qed.

(** The target the lines leave is the one they found, or the name of a
    marker among them, whose record is then among the calls. *)
Lemma readLines_last (ls : list string) (cur : option string) :
  (readLines ls cur).2 = cur
  ∨ ∃ n, (readLines ls cur).2 = Some n ∧ n ≠ "" ∧ AddFile n ∈ (readLines ls cur).1.
Proof.
  revert cur. induction ls as [|l ls IH]; intros cur; [by left|].
  rewrite readLines_cons. simpl.
  destruct (IH (readLine l cur).2) as [->|(n & -> & Hn & Hin)].
  - rewrite readLine_classify.
    destruct (Protocol.classify l) as [n| |] eqn:Hl; simpl; [|by left|].
    + right. exists n. split; [done|].
      split; [by apply classify_Header_nonempty in Hl|].
      apply list_elem_of_here.
    + left. by destruct (JS.truthy_opt cur).
  - right. exists n. split; [done|]. split; [done|].
    apply elem_of_app. by right.
Qed.

Lemma onBatch_cur_ok (ls : list string) (a : App) (cur : option string) :
  cur_ok cur (files a) →
  cur_ok (onBatch ls (a, cur)).2 (files (onBatch ls (a, cur)).1).
Proof.
  intros Hcur. unfold onBatch. simpl.
  destruct (readLines_last ls cur) as [Hsame|(n & Hn & Hne & Hin)];
    destruct (readLines ls cur) as [calls cur']; simpl in *; subst.
  - destruct cur as [c|]; [|done]. destruct Hcur as [Hc Hin].
    split; [done|]. by apply hasFile_render.
  - split; [done|]. by apply render_adds.
Qed.

Lemma onBatches_cur_ok (bs : list (list string)) (p : App * option string) :
  cur_ok p.2 (files p.1) →
  cur_ok (onBatches bs p).2 (files (onBatches bs p).1).
Proof.
  revert p. induction bs as [|ls bs IH]; intros [a cur] Hcur; [done|].
  apply IH. by apply onBatch_cur_ok.
Qed.

Lemma feed_st (cs : list string) (r : Demux) :
  st (feed cs r) = (onBatches (batches (buffer r) cs) (st r, currentFileName r)).1.
Proof. by rewrite <- feed_batches. Qed.

Lemma feed_cur (cs : list string) (r : Demux) :
  currentFileName (feed cs r)
  = (onBatches (batches (buffer r) cs) (st r, currentFileName r)).2.
Proof. by rewrite <- feed_batches. Qed.

(** The target the chunks leave is not the empty name, and it has a
    record. *)
Lemma feed_cur_ok (cs : list string) (a : App) :
  cur_ok (currentFileName (feed cs (start a))) (files (st (feed cs (start a)))).
Proof. rewrite feed_st, feed_cur. by apply onBatches_cur_ok. Qed.

(** The File Set the calls build depends on the File Set alone. *)
Lemma render_files t (calls : list Call) (a a' : App) :
  files a' = files a → files (render t calls a') = files (render t calls a).
Proof.
  revert a a'. induction calls as [|c calls IH]; intros a a' Hfiles; [done|].
  apply IH. destruct c; simpl; [by rewrite Hfiles|done|].
  destruct t; simpl; by rewrite ?Hfiles.
Qed.

Lemma feed_files_same (cs : list string) (r r' : Demux) :
  files (st r') = files (st r) →
  currentFileName r' = currentFileName r →
  buffer r' = buffer r →
  files (st (feed cs r')) = files (st (feed cs r))
  ∧ currentFileName (feed cs r') = currentFileName (feed cs r)
  ∧ buffer (feed cs r') = buffer (feed cs r).
Proof.
  revert r r'. induction cs as [|c cs IH]; intros r r' Hfiles Hcur Hbuf; [done|].
  rewrite !feed_cons. apply IH; rewrite !onChunk_batch; unfold onBatch; simpl.
  - rewrite Hcur, Hbuf. destruct (readLines _ _). simpl. by apply render_files.
  - rewrite Hcur, Hbuf. by destruct (readLines _ _).
  - by rewrite Hbuf.
Qed.

Lemma feed_files_irrelevant (cs : list string) (a a' : App) :
  files a' = files a →
  files (st (feed cs (start a'))) = files (st (feed cs (start a))).
Proof. intros Hfiles. by apply feed_files_same. Qed.

(** The names stay distinct. *)
Lemma NoDup_render t (calls : list Call) (a : App) :
  NoDup (map fileName (files a)) → NoDup (map fileName (files (render t calls a))).
Proof.
  revert a. induction calls as [|c calls IH]; intros a Hnames; [done|].
  apply IH. destruct c as [n|n|x]; simpl; [|done|].
  - unfold addFile. destruct (hasFile n (files a)) eqn:Hn; [done|].
    rewrite map_app. apply NoDup_app. split; [done|].
    split; [|apply NoDup_singleton].
    intros m Hm Hm'. apply list_elem_of_singleton in Hm' as ->.
    simpl in Hm. apply hasFile_true in Hm. congruence.
  - destruct t; [|done]. simpl. by rewrite names_appendTo.
Qed.

Lemma NoDup_feed (cs : list string) (r : Demux) :
  NoDup (map fileName (files (st r))) →
  NoDup (map fileName (files (st (feed cs r)))).
Proof.
  revert r. induction cs as [|c cs IH]; intros r Hnames; [done|].
  rewrite feed_cons. apply IH. rewrite onChunk_batch. unfold onBatch. simpl.
  destruct (readLines _ _). simpl. by apply NoDup_render.
Qed.

(** Records are only added, contents only grow. *)
Lemma extends_refl (fs : list FileData) : extends fs fs.
Proof.
  exists (λ _, ""), []. rewrite app_nil_r. split; [|constructor].
  rewrite <- (map_id fs) at 1. apply map_ext. intros f.
  by rewrite append_nil_r, with_content_id.
Qed.

Lemma extends_trans (fs gs hs : list FileData) :
  extends fs gs → extends gs hs → extends fs hs.
Proof.
  intros (m1 & a1 & -> & H1) (m2 & a2 & -> & H2).
  exists (λ f, m1 f +:+ m2 (with_content f (content f +:+ m1 f))),
         (map (λ g, with_content g (content g +:+ m2 g)) a1 ++ a2).
  split.
  - rewrite map_app, map_map, app_assoc. f_equal. f_equal.
    apply map_ext. intros f. unfold with_content. simpl. by rewrite append_assoc.
  - apply Forall_app. split; [by rewrite Forall_map|].
    eapply Forall_impl; [exact H2|]. intros g. simpl.
    rewrite hasFile_app. intros Hg. apply orb_false_elim in Hg as [Hg _].
    rewrite <- Hg. symmetry. apply hasFile_same_names.
    rewrite map_map. by apply map_ext.
Qed.

Lemma extends_render t (calls : list Call) (a : App) :
  extends (files a) (files (render t calls a)).
Proof.
  revert a. induction calls as [|c calls IH]; intros a; [apply extends_refl|].
  eapply extends_trans; [|apply IH].
  destruct c as [n|n|x]; simpl; [|apply extends_refl|].
  - unfold addFile. destruct (hasFile n (files a)) eqn:Hn; [apply extends_refl|].
    exists (λ _, ""), [fileData n]. split; [|by repeat constructor].
    f_equal. rewrite <- (map_id (files a)) at 1. apply map_ext. intros f.
    by rewrite append_nil_r, with_content_id.
  - destruct t as [c|]; [|apply extends_refl]. simpl.
    exists (λ f, if String.eqb (fileName f) c then x else ""), [].
    rewrite app_nil_r. split; [|constructor].
    unfold appendTo. apply map_ext. intros f.
    destruct (String.eqb _ _); [done|].
    by rewrite append_nil_r, with_content_id.
Qed.

Lemma extends_feed (cs : list string) (r : Demux) :
  extends (files (st r)) (files (st (feed cs r))).
Proof.
  revert r. induction cs as [|c cs IH]; intros r; [apply extends_refl|].
  rewrite feed_cons. eapply extends_trans; [|apply IH].
  rewrite onChunk_batch. unfold onBatch. simpl.
  destruct (readLines _ _). simpl. apply extends_render.
Qed.

(** The pointer moves to the name of a marker only, and a marker's record
    is among the calls before its selection. *)
Lemma render_pointer t (calls : list Call) (a : App) :
  activeFileName (render t calls a) = activeFileName a
  ∨ Activate (activeFileName (render t calls a)) ∈ calls.
Proof.
  revert a. induction calls as [|c calls IH]; intros a; [by left|].
  simpl. destruct (IH (runCall t a c)) as [->|Hin].
  - destruct c as [n|n|x]; simpl; [by left| |destruct t; by left].
    right. apply list_elem_of_here.
  - right. by apply list_elem_of_further.
Qed.

Lemma readLines_activate (ls : list string) (cur : option string) (n : string) :
  Activate n ∈ (readLines ls cur).1 → AddFile n ∈ (readLines ls cur).1.
Proof.
  revert cur. induction ls as [|l ls IH]; intros cur.
  { intros Hin. by apply elem_of_nil in Hin. }
  rewrite readLines_cons. simpl. rewrite !elem_of_app.
  intros [Hin|Hin]; [left|right; by apply IH].
  rewrite readLine_classify in *.
  destruct (Protocol.classify l) as [m| |]; simpl in *.
  - apply elem_of_cons in Hin as [|Hin]; [done|].
    apply list_elem_of_singleton in Hin as [= ->]. apply list_elem_of_here.
  - by apply elem_of_nil in Hin.
  - destruct (JS.truthy_opt cur); simpl in *.
    + apply list_elem_of_singleton in Hin. done.
    + by apply elem_of_nil in Hin.
Qed.

Lemma onChunk_pointer (text : string) (r : Demux) :
  pointer_ok (st r) → pointer_ok (st (onChunk text r)).
Proof.
  unfold pointer_ok. intros Hok. rewrite onChunk_batch. unfold onBatch. simpl.
  pose proof (readLines_activate
                (Protocol.completeLines (buffer r +:+ text)) (currentFileName r))
    as Hadd.
  destruct (readLines _ _) as [calls cur]. simpl in *.
  destruct (render_pointer cur calls (st r)) as [->|Hin].
  - destruct Hok as [->|Hok]; [by left|right]. by apply hasFile_render.
  - right. by apply render_adds, Hadd.
Qed.

(** ** The stream demultiplexer *)

(** C1. Feeding the chunks of a stream one at a time does not always build
    the File Set that feeding their concatenation as one chunk builds. The
    text of [sample] is a well-formed stream of two files. Delivered line by
    line, or split inside a marker and inside a line, it builds a.txt with
    its two lines and b.txt with its line. Delivered as one chunk it leaves
    a.txt empty: the appends of [hello] and [world] are run when the chunk
    has been gone through, [currentFileName] holds [b.txt] by then, and no
    record has that name before the marker's own call is run. *)
Theorem C1_chunking_changes_the_result :
  joined (lineByLine sampleLines) = joined [sample]
  ∧ joined [">>>FI"; "LE: a.txt" +:+ unlines [""] +:+ "hel";
            "lo" +:+ unlines [""; "world"]; unlines [">>>FILE: b.txt"; "foo"]]
    = joined [sample]
  ∧ files (demultiplex (lineByLine sampleLines) emptyApp)
    = [oneFile "a.txt" (unlines ["hello"; "world"]); oneFile "b.txt" (unlines ["foo"])]
  ∧ files (demultiplex
             [">>>FI"; "LE: a.txt" +:+ unlines [""] +:+ "hel";
              "lo" +:+ unlines [""; "world"]; unlines [">>>FILE: b.txt"; "foo"]]
             emptyApp)
    = [oneFile "a.txt" (unlines ["hello"; "world"]); oneFile "b.txt" (unlines ["foo"])]
  ∧ files (demultiplex [sample] emptyApp)
    = [oneFile "a.txt" ""; oneFile "b.txt" (unlines ["foo"])]
  ∧ files (demultiplex (lineByLine sampleLines) emptyApp)
    ≠ files (demultiplex [joined (lineByLine sampleLines)] emptyApp).
Proof. do 5 (split; [by vm_compute|]). by vm_compute. Qed.

(** C2. From an empty File Set the sample chunk does not give a.txt with
    "hello\nworld\n": it gives the two records in the order of their
    markers, a.txt empty and b.txt with "foo\n", and the handler with its
    formatting pass ends with these contents. The two lines sent after the
    marker of a.txt are appended to no record. *)
Theorem C2_sample_chunk_loses_lines :
  files (demultiplex [sample] emptyApp)
  = [ {| fileName := "a.txt"; content := "";
         path := Some ""; type := Some file |};
      {| fileName := "b.txt"; content := unlines ["foo"];
         path := Some ""; type := Some file |} ]
  ∧ ∀ E : External,
      map (λ f, (fileName f, content f))
          (files (handleSubmit (Some "two files") "" (mkStream [sample] None) emptyApp))
      = [("a.txt", ""); ("b.txt", unlines ["foo"])].
Proof. split; [by vm_compute|]. intros E. by vm_compute. Qed.

Lemma extends_flush (r : Demux) : extends (files (st r)) (files (flush r)).
Proof.
  unfold flush. destruct (currentFileName r) as [c|]; [|apply extends_refl].
  destruct (_ && _); [|apply extends_refl].
  apply (extends_render (Some c) [AppendLine (buffer r)] (st r)).
Qed.

(** C10. A generation starts from the File Set as it is: every record that
    was there is still there at the end, at its place, and its content
    begins with what it was; a marker that names an old record adds no
    record. But the lines that follow such a marker are not always appended
    to that record: when the chunk that brings them also brings the next
    marker, they are appended to no record and the old content stays alone.
    When no other marker comes in their chunk they are appended after the
    old content. *)
Theorem C10_lines_for_an_old_file_are_lost :
  files (generate
           (mkStream [unlines [">>>FILE: a.txt"; "new"; ">>>FILE: b.txt"]] None)
           (mkApp [oneFile "a.txt" (unlines ["old"])] "a.txt" false None))
  = [oneFile "a.txt" (unlines ["old"]); oneFile "b.txt" ""]
  ∧ files (generate
             (mkStream [unlines [">>>FILE: a.txt"; "new"]; unlines [">>>FILE: b.txt"]]
                       None)
             (mkApp [oneFile "a.txt" (unlines ["old"])] "a.txt" false None))
    = [oneFile "a.txt" (unlines ["old"; "new"]); oneFile "b.txt" ""]
  ∧ ∀ (cs : list string) (a : App),
      extends (files a) (files (generate (mkStream cs None) a)).
Proof.
  split; [by vm_compute|]. split; [by vm_compute|].
  intros cs a.
  change (files (generate (mkStream cs None) a))
    with (files (flush (feed cs (start (setError None (setIsLoading true a)))))).
  eapply extends_trans; [|apply extends_flush].
  apply (extends_feed cs (start (setError None (setIsLoading true a)))).
Qed.

Lemma names_flush (r : Demux) :
  map fileName (files (flush r)) = map fileName (files (st r)).
Proof.
  unfold flush. destruct (_ && _); [|done]. simpl. apply names_appendTo.
Qed.

(** C3. A marker that names a record of the File Set does not leave that
    record's content as it was: with a.txt holding "A\n" and b.txt empty,
    the chunk that sends the line [B] for b.txt and then the marker of a.txt
    ends with "A\nB\n" in a.txt and nothing in b.txt. The marker's
    assignment to [currentFileName] is read by the append queued before it.
    What does hold is that no second record is made: a File Set whose names
    are distinct keeps distinct names over every stream. *)
Theorem C3_duplicate_marker_takes_lines :
  files (demultiplex
           [unlines [">>>FILE: b.txt"; "B"; ">>>FILE: a.txt"]]
           (mkApp [oneFile "a.txt" (unlines ["A"]); oneFile "b.txt" ""]
                  "b.txt" false None))
  = [oneFile "a.txt" (unlines ["A"; "B"]); oneFile "b.txt" ""]
  ∧ ∀ (cs : list string) (a : App),
      NoDup (map fileName (files a)) →
      NoDup (map fileName (files (demultiplex cs a))).
Proof.
  split; [by vm_compute|].
  intros cs a Hnames. unfold demultiplex. rewrite names_flush.
  by apply NoDup_feed.
Qed.

Lemma C3_duplicate_marker_takes_lines_witness :
  NoDup (map fileName
           (files (demultiplex
                     [unlines [">>>FILE: a.txt"; "x"; ">>>FILE: b.txt";
                               ">>>FILE: a.txt"; "y"]]
                     emptyApp))).
Proof.
  apply (proj2 C3_duplicate_marker_takes_lines). simpl. constructor.
Defined.





(** ** The formatter gateway *)

Lemma getParser_unrecognised (fileName : string) :
  Forall (λ ext, JS.endsWith fileName ext = false)
         [".html"; ".css"; ".js"; ".jsx"; ".ts"; ".tsx"] →
  getParser fileName = None.
Proof.
  intros H. unfold getParser.
  repeat (apply Forall_cons in H as [-> H]). reflexivity.
Qed.

Lemma formatCode_cases (E : External) (fileName content : string) :
  formatCode fileName content = Normal content
  ∨ ∃ parser out, getParser fileName = Some parser
                  ∧ prettier_format parser content = Normal out
                  ∧ formatCode fileName content = Normal out.
Proof.
  unfold formatCode. destruct (getParser fileName) as [parser|]; [|by left].
  destruct (_ && _); [by left|]. destruct (_ || _); [by left|].
  destruct (prettier_format parser content) as [out|] eqn:Hp; simpl.
  - right. by exists parser, out.
  - by left.
Qed.

(** C6. [formatCode] always ends normally, whatever the file name, the
    content and the pretty-printer do; and its result is the content it was
    given when the extension is none of the recognised ones, when a [.css]
    file has different numbers of opening and closing braces, when the
    trimmed content is empty or shorter than 10, and when the pretty-printer
    throws. *)
Theorem C6_formatCode_never_raises (E : External) (fileName content : string) :
  (∃ out, formatCode fileName content = Normal out)
  ∧ (Forall (λ ext, JS.endsWith fileName ext = false)
            [".html"; ".css"; ".js"; ".jsx"; ".ts"; ".tsx"] →
     formatCode fileName content = Normal content)
  ∧ (JS.endsWith fileName ".css" = true →
     JS.count "{"%char content ≠ JS.count "}"%char content →
     formatCode fileName content = Normal content)
  ∧ (JS.trim content = "" ∨ String.length (JS.trim content) < 10 →
     formatCode fileName content = Normal content)
  ∧ (∀ parser, getParser fileName = Some parser →
     prettier_format parser content = Throw →
     formatCode fileName content = Normal content).
Proof.
  split; [|split; [|split; [|split]]].
  - destruct (formatCode_cases E fileName content) as [H|(p & out & _ & _ & H)]; eauto.
  - intros H. unfold formatCode. by rewrite (getParser_unrecognised _ H).
  - intros Hcss Hbraces. unfold formatCode.
    destruct (getParser fileName); [|done].
    rewrite Hcss. apply Nat.eqb_neq in Hbraces. by rewrite Hbraces.
  - intros Hshort. unfold formatCode.
    destruct (getParser fileName); [|done].
    destruct (_ && _); [done|].
    assert (negb (JS.truthy (JS.trim content))
            || (String.length (JS.trim content) <? 10) = true) as ->; [|done].
    destruct Hshort as [->|Hlt]; [done|].
    apply Nat.ltb_lt in Hlt. rewrite Hlt. apply orb_true_r.
  - intros parser Hparser Hthrow. unfold formatCode. rewrite Hparser, Hthrow.
    simpl. by repeat destruct (_ : bool).
Qed.

Lemma C6_formatCode_never_raises_witness :
  @formatCode excerpt "README.md" "# title, long enough" = Normal "# title, long enough"
  ∧ @formatCode excerpt "s.css" "a{color:red" = Normal "a{color:red"
  ∧ @formatCode excerpt "a.js" "  x=1  " = Normal "  x=1  "
  ∧ @formatCode excerpt "a.js" "const x = = 1;" = Normal "const x = = 1;".
Proof.
  split; [|split; [|split]].
  - apply (proj1 (proj2 (C6_formatCode_never_raises excerpt "README.md" _))).
    repeat constructor.
  - apply (proj1 (proj2 (proj2 (C6_formatCode_never_raises excerpt "s.css" _))));
      [reflexivity|vm_compute; lia].
  - apply (proj1 (proj2 (proj2 (proj2 (C6_formatCode_never_raises excerpt "a.js" _))))).
    right. vm_compute. lia.
  - apply (proj2 (proj2 (proj2 (proj2 (C6_formatCode_never_raises excerpt "a.js" _))))
             babel); reflexivity.
Defined.

(** ** Persisted state *)

Lemma validFile_cases (f : json) :
  (wellFormedFile f = true ∧ validFile f = Normal true)
  ∨ (wellFormedFile f = false
     ∧ (validFile f = Normal false ∨ (f = JNull ∧ validFile f = Throw))).
Proof.
  destruct f as [| | | | |fields]; simpl; auto.
  unfold validFile, hasString. simpl.
  destruct (assoc "fileName" fields) as [[]|]; simpl; auto.
  destruct (assoc "content" fields) as [[]|]; simpl; auto.
Qed.

Lemma every_cases (items : list json) :
  (forallb wellFormedFile items = true ∧ every validFile items = Normal true)
  ∨ (forallb wellFormedFile items = false
     ∧ (every validFile items = Normal false
        ∨ (JNull ∈ items ∧ every validFile items = Throw))).
Proof.
  induction items as [|f items IH]; simpl; [auto|].
  destruct (validFile_cases f) as [[-> ->]|[-> [->|[-> ->]]]]; simpl.
  - destruct IH as [[-> ->]|[-> [->|[Hin ->]]]]; auto.
    right. split; [done|]. right. split; [|done]. by apply list_elem_of_further.
  - auto.
  - right. split; [done|]. right. split; [|done]. apply list_elem_of_here.
Qed.

Lemma sweep_lookup (storage : gmap string string) (k : string) :
  JS.truthy k = true → projectRelated k = true → sweep storage !! k = None.
Proof.
  intros Hk Hrel. unfold sweep. apply map_lookup_filter_None. right.
  intros v _. simpl. rewrite Hk, Hrel. done.
Qed.

Lemma sweep_keeps (storage : gmap string string) (k : string) :
  projectRelated k = false → sweep storage !! k = storage !! k.
Proof.
  intros Hrel. unfold sweep. destruct (storage !! k) as [v|] eqn:Hv.
  - apply map_lookup_filter_Some. split; [done|]. simpl.
    rewrite Hrel. apply andb_false_r.
  - apply map_lookup_filter_None. by left.
Qed.

(** C7 as it is worded fails: a stored value that is not an array (here the
    number 5) makes the loader return the empty project and remove the
    project's own key, but another project-related key of the storage stays. *)
Lemma C7_counterexample :
  JSON_parse (External := excerpt) "5" = Normal (JNumber 5)
  ∧ (@initialFiles excerpt strayStorage).1 = []
  ∧ (@initialFiles excerpt strayStorage).2 !! "code-project" = None
  ∧ projectRelated "ai-theme" = true
  ∧ (@initialFiles excerpt strayStorage).2 !! "ai-theme" = Some "dark"
  ∧ ¬ (∀ k, projectRelated k = true →
            (@initialFiles excerpt strayStorage).2 !! k = None).
Proof.
  repeat (split; [by vm_compute|]).
  intros Hcleared. specialize (Hcleared "ai-theme" eq_refl). by vm_compute in Hcleared.
Qed.

(** C7, amended. For a non-empty saved text the loader never throws and:
    a parsed value with the asked structure is returned as the File Set and
    the storage is left alone; any other parsed value gives the empty
    project and removes the project's key, and nothing else unless the
    validation threw on a [null] element; a text that does not parse gives
    the empty project too. Only these two exception paths go on to remove
    every key whose name contains [code], [project] or [ai]; keys without
    such a name are never touched. *)
Theorem C7_loader_discards_invalid_state
    (E : External) (storage : gmap string string) (saved : string) :
  storage !! PROJECT_KEY = Some saved →
  JS.truthy saved = true →
  (∀ parsed, JSON_parse saved = Normal parsed →
     wellFormedProject parsed = true →
     initialFiles storage = (asFiles parsed, storage))
  ∧ (∀ parsed, JSON_parse saved = Normal parsed →
       wellFormedProject parsed = false →
       (initialFiles storage).1 = []
       ∧ (initialFiles storage).2 !! PROJECT_KEY = None
       ∧ ((initialFiles storage).2 = delete PROJECT_KEY storage
          ∨ ((∃ items, parsed = JArray items ∧ JNull ∈ items)
             ∧ (initialFiles storage).2 = sweep (delete PROJECT_KEY storage))))
  ∧ (JSON_parse saved = Throw →
     initialFiles storage = ([], sweep (delete PROJECT_KEY storage)))
  ∧ (∀ k, JS.truthy k = true → projectRelated k = true →
          sweep (delete PROJECT_KEY storage) !! k = None)
  ∧ (∀ k, projectRelated k = false →
          (initialFiles storage).2 !! k = storage !! k).
Proof.
  intros Hsaved Htruthy.
  assert (Hcases :
    match JSON_parse saved with
    | Normal parsed =>
        if wellFormedProject parsed
        then initialFiles storage = (asFiles parsed, storage)
        else (initialFiles storage = ([], delete PROJECT_KEY storage)
              ∨ ((∃ items, parsed = JArray items ∧ JNull ∈ items)
                 ∧ initialFiles storage = ([], sweep (delete PROJECT_KEY storage))))
    | Throw => initialFiles storage = ([], sweep (delete PROJECT_KEY storage))
    end).
  { unfold initialFiles. rewrite Hsaved, Htruthy.
    destruct (JSON_parse saved) as [parsed|]; simpl; [|done].
    destruct parsed as [| | | |items|]; simpl; auto.
    destruct (every_cases items) as [[-> ->]|[-> [->|[Hin ->]]]]; simpl; eauto. }
  split; [|split; [|split; [|split]]].
  - intros parsed Hp Hwf. by rewrite Hp, Hwf in Hcases.
  - intros parsed Hp Hwf. rewrite Hp, Hwf in Hcases.
    destruct Hcases as [->|[Hnull ->]]; simpl.
    + split; [done|]. split; [apply lookup_delete_eq|by left].
    + split; [done|]. split; [by apply sweep_lookup|by right].
  - intros Hp. by rewrite Hp in Hcases.
  - intros k. apply sweep_lookup.
  - intros k Hk.
    assert (Hne : PROJECT_KEY ≠ k) by (intros <-; by vm_compute in Hk).
    destruct (JSON_parse saved) as [parsed|].
    + destruct (wellFormedProject parsed).
      * by rewrite Hcases.
      * destruct Hcases as [->|[_ ->]]; simpl.
        -- by rewrite lookup_delete_ne.
        -- by rewrite sweep_keeps, lookup_delete_ne.
    + rewrite Hcases. simpl. by rewrite sweep_keeps, lookup_delete_ne.
Qed.

Lemma C7_loader_discards_invalid_state_witness :
  @initialFiles excerpt goodStorage
  = ([ {| fileName := "a.txt"; content := "x"; path := None; type := None |} ],
     goodStorage)
  ∧ (@initialFiles excerpt strayStorage).2 = delete PROJECT_KEY strayStorage
  ∧ (@initialFiles excerpt nullStorage).1 = []
  ∧ (@initialFiles excerpt nullStorage).2 !! "ai-theme" = None
  ∧ (@initialFiles excerpt nullStorage).2 !! "volume" = Some "7".
Proof.
  split; [|split; [|split; [|split]]].
  - apply (proj1 (C7_loader_discards_invalid_state excerpt goodStorage savedProject
                    eq_refl eq_refl) _ eq_refl eq_refl).
  - destruct (proj1 (proj2 (C7_loader_discards_invalid_state excerpt strayStorage "5"
                              eq_refl eq_refl)) _ eq_refl eq_refl)
      as (_ & _ & [H|[(items & [=] & _) _]]).
    exact H.
  - apply (proj1 (proj2 (C7_loader_discards_invalid_state excerpt nullStorage "[null]"
                           eq_refl eq_refl)) _ eq_refl eq_refl).
  - destruct (proj1 (proj2 (C7_loader_discards_invalid_state excerpt nullStorage "[null]"
                              eq_refl eq_refl)) _ eq_refl eq_refl)
      as (_ & _ & [H|[_ H]]); [by vm_compute in H|by rewrite H].
  - rewrite (proj2 (proj2 (proj2 (proj2
               (C7_loader_discards_invalid_state excerpt nullStorage "[null]"
                  eq_refl eq_refl)))) "volume" eq_refl).
    reflexivity.
Defined.

(** ** Failure of the stream *)

Lemma formatAll_spec (E : External) (fs : list FileData) :
  ∃ out, formatAll fs = Normal out ∧ Forall2 (reformatted E) fs out.
Proof.
  induction fs as [|f fs (out & Hout & Hall)]; simpl.
  - exists []. split; [done|constructor].
  - destruct (formatCode_cases E (fileName f) (content f))
      as [Hf|(parser & c & Hparser & Hpretty & Hf)];
      rewrite Hf, Hout; simpl; eexists; (split; [reflexivity|]);
      constructor; try done; split; simpl; eauto.
Qed.

(** C8 as it is worded fails: the stream below delivers a complete style
    sheet and then fails; the handler keeps the file, but the formatting pass
    of its [finally] block runs all the same and replaces the content that
    was built by the pretty-printer's output. *)
Lemma C8_counterexample :
  map content (files (st (feed (chunks failingStream) (start emptyApp))))
  = [unlines ["a{color:red}"]]
  ∧ map content
      (files (@handleSubmit excerpt (Some "a red link") "" failingStream emptyApp))
    = [unlines ["a {"; "  color: red;"; "}"]]
  ∧ map content
      (files (@handleSubmit excerpt (Some "a red link") "" failingStream emptyApp))
    ≠ map content (files (st (feed (chunks failingStream) (start emptyApp)))).
Proof. split; [by vm_compute|]. split; [by vm_compute|]. by vm_compute. Qed.

(** C8, amended. When the stream fails after the chunks [cs], the handler
    stops there: the File Set is the one the chunks received so far had
    left (the records that were there before the request are all still
    there, each content beginning with what it was; the pending partial line
    is not flushed), the error message is set and loading is over. The
    formatting pass of the [finally] block then still runs: it keeps every
    record's name and order and leaves a content as it was unless the
    pretty-printer accepted it and returned another; the error message
    stays. So after the sample chunk and an error, a.txt and b.txt are kept
    as that chunk left them, a.txt empty. *)
Theorem C8_error_keeps_partial_files
    (E : External) (cs : list string) (e : Thrown) (a : App) :
  files (generate (mkStream cs (Some e)) a) = files (st (feed cs (start a)))
  ∧ extends (files a) (files (generate (mkStream cs (Some e)) a))
  ∧ error (generate (mkStream cs (Some e)) a)
    = Some ("Failed to generate code: " +:+ errorMessage e
            +:+ ". Please check your API key and try again.")
  ∧ isLoading (generate (mkStream cs (Some e)) a) = false
  ∧ Forall2 (reformatted E)
            (files (st (feed cs (start a))))
            (files (formatted (generate (mkStream cs (Some e)) a)))
  ∧ error (formatted (generate (mkStream cs (Some e)) a))
    = error (generate (mkStream cs (Some e)) a)
  ∧ files (generate (mkStream [sample] (Some (ErrorObject "503"))) emptyApp)
    = [oneFile "a.txt" ""; oneFile "b.txt" (unlines ["foo"])].
Proof.
  assert (Hfiles : files (generate (mkStream cs (Some e)) a)
                   = files (st (feed cs (start a)))).
  { unfold generate. simpl. by apply feed_files_irrelevant. }
  split; [done|]. split; [rewrite Hfiles; apply (extends_feed cs (start a))|].
  split; [done|]. split; [done|].
  destruct (formatAll_spec E (files (generate (mkStream cs (Some e)) a)))
    as (out & Hout & Hall).
  unfold formatted. rewrite Hout.
  split; [by rewrite <- Hfiles|]. split; [done|]. by vm_compute.
Qed.

(** ** The active file pointer *)

Lemma or_else_empty (s : string) : JS.or_else s "" = s.
Proof. by destruct s. Qed.

Lemma hasFile_filter n m (fs : list FileData) :
  hasFile n (filter (λ f, String.eqb (fileName f) m = false) fs)
  = hasFile n fs && negb (String.eqb n m).
Proof.
  induction fs as [|f fs IH]; [done|].
  rewrite filter_cons. destruct (decide _) as [Hf|Hf]; simpl; rewrite IH.
  - destruct (String.eqb (fileName f) n) eqn:Hn; simpl; [|done].
    apply String.eqb_eq in Hn as <-. by rewrite Hf.
  - apply not_false_iff_true, String.eqb_eq in Hf as ->.
    destruct (String.eqb m n) eqn:Hn; simpl; [|done].
    apply String.eqb_eq in Hn as <-. rewrite String.eqb_refl. simpl.
    apply andb_false_r.
Qed.

Lemma revalidate_ok (a : App) : pointer_ok (revalidate a).
Proof.
  unfold revalidate, pointer_ok.
  destruct (hasFile (activeFileName a) (files a)) eqn:Hin; simpl; [by right|].
  destruct (files a) as [|f fs]; simpl; [by left|].
  right. by rewrite or_else_empty, String.eqb_refl.
Qed.

Lemma change_keeps_pointer (a a' : App) :
  change a a' → pointer_ok a → pointer_ok a'.
Proof.
  unfold pointer_ok.
  intros Hchange Hok. destruct Hchange as [c a|n p a|n a|a|l a cur|text r|r|E a|a].
  - destruct c as [c|]; [|done]. simpl. destruct Hok as [->|Hin]; [by left|right].
    rewrite <- Hin. apply hasFile_same_names. rewrite map_map.
    apply map_ext. intros f. by destruct (String.eqb _ _).
  - right. simpl. rewrite hasFile_app. simpl.
    by rewrite String.eqb_refl, orb_true_r.
  - unfold handleDeleteFile.
    destruct (String.eqb (activeFileName a) n) eqn:Hn; simpl.
    + destruct (filter _ (files a)) as [|f fs]; [by left|right].
      simpl. by rewrite or_else_empty, String.eqb_refl.
    + destruct Hok as [->|Hin]; [by left|right].
      by rewrite hasFile_filter, Hin, Hn.
  - by left.
  - rewrite onLine_classify.
    destruct (Protocol.classify l) as [n| |]; simpl; [|done|].
    + right. unfold addFile.
      destruct (hasFile n (files a)) eqn:Hn; [done|].
      rewrite hasFile_app. simpl. by rewrite String.eqb_refl, orb_true_r.
    + destruct (JS.truthy_opt cur); [|done]. simpl.
      by rewrite hasFile_appendTo.
  - by apply onChunk_pointer.
  - unfold flush. destruct (_ && _); [|done]. simpl. by rewrite hasFile_appendTo.
  - unfold formatted. destruct (formatAll_spec E (files a)) as (out & -> & Hall).
    simpl. destruct Hok as [->|Hin]; [by left|right].
    rewrite <- Hin. apply hasFile_same_names.
    clear Hin. induction Hall as [|f g fs gs [Hname _] _ IH]; [done|].
    simpl. by rewrite Hname, IH.
  - apply revalidate_ok.
Qed.

(** C9. Deleting the active file removes every record of that name and
    moves the pointer to the first remaining record, or to the empty name
    when none remains; the effect run after a change of the File Set leaves
    the File Set as it is and a pointer that names a record or is empty;
    and no change of the File Set (edit, creation, deletion, reset, streamed
    line, the calls of a whole chunk, final flush, formatting pass) makes a
    valid pointer dangle. *)
Theorem C9_pointer_never_dangles :
  (∀ a,
     hasFile (activeFileName a) (files (handleDeleteFile (activeFileName a) a)) = false
     ∧ ((files (handleDeleteFile (activeFileName a) a) = []
         ∧ activeFileName (handleDeleteFile (activeFileName a) a) = "")
        ∨ ∃ f rest,
            files (handleDeleteFile (activeFileName a) a) = f :: rest
            ∧ activeFileName (handleDeleteFile (activeFileName a) a) = fileName f))
  ∧ (∀ a, files (revalidate a) = files a ∧ pointer_ok (revalidate a))
  ∧ (∀ a a', change a a' → pointer_ok a → pointer_ok a').
Proof.
  split; [|split].
  - intros a. unfold handleDeleteFile. rewrite String.eqb_refl. simpl. split.
    + rewrite hasFile_filter, String.eqb_refl. apply andb_false_r.
    + destruct (filter _ (files a)) as [|f fs]; [by left|right].
      exists f, fs. simpl. by rewrite or_else_empty.
  - intros a. split; [|apply revalidate_ok].
    unfold revalidate. by destruct (negb _).
  - apply change_keeps_pointer.
Qed.

Lemma C9_pointer_never_dangles_witness :
  pointer_ok (handleDeleteFile "a.txt"
                (mkApp [oneFile "a.txt" "x"; oneFile "b.txt" "y"] "a.txt" false None)).
Proof.
  apply (proj2 (proj2 C9_pointer_never_dangles)
           (mkApp [oneFile "a.txt" "x"; oneFile "b.txt" "y"] "a.txt" false None)).
  - apply change_delete.
  - right. reflexivity.
Defined.

(** * Further properties *)

(** ** The wire format *)




Lemma classify_plainLine (l : string) :
  plainLine l → Protocol.classify l = Protocol.Text.
Proof. intros [_ Hl]. unfold Protocol.classify. by rewrite Hl. Qed.



Lemma target_plain (cur : option string) (ls rest : list string) :
  Forall plainLine ls →
  Protocol.target cur (ls ++ rest) = Protocol.target cur rest.
Proof.
  induction 1 as [|l ls Hl _ IH]; [done|].
  simpl. by rewrite (classify_plainLine _ Hl).
Qed.











Lemma onLines_app (ls1 ls2 : list string) (p : App * option string) :
  onLines (ls1 ++ ls2) p = onLines ls2 (onLines ls1 p).
Proof. apply fold_left_app. Qed.













Lemma names_addFile (n : string) (fs fs' : list FileData) :
  map fileName fs = map fileName fs' →
  map fileName (addFile n fs) = map fileName (addFile n fs').
Proof.
  intros Hnames. unfold addFile. rewrite (hasFile_same_names n fs' fs Hnames).
  destruct (hasFile n fs'); [done|]. by rewrite !map_app, Hnames.
Qed.

Lemma onLine_target (l : string) (a : App) (cur : option string) :
  (onLine l a cur).2 = (readLine l cur).2.
Proof. unfold onLine. by destruct (readLine l cur). Qed.

Lemma onLines_target (ls : list string) (a : App) (cur : option string) :
  (onLines ls (a, cur)).2 = (readLines ls cur).2.
Proof.
  revert a cur. induction ls as [|l ls IH]; intros a cur; [done|].
  rewrite onLines_cons, readLines_cons. cbn [fst snd].
  rewrite <- (onLine_target l a cur). destruct (onLine l a cur). apply IH.
Qed.

(** Which records there are, and in which order, does not depend on when
    the calls are run. *)
Lemma names_readLines t (ls : list string) (cur : option string) (a a' : App) :
  map fileName (files a) = map fileName (files a') →
  map fileName (files (render t (readLines ls cur).1 a))
  = map fileName (files (onLines ls (a', cur)).1).
Proof.
  revert cur a a'. induction ls as [|l ls IH]; intros cur a a' Hnames; [done|].
  rewrite readLines_cons, onLines_cons. cbn [fst snd]. rewrite render_app.
  pose proof (onLine_target l a' cur) as Hcur.
  destruct (onLine l a' cur) as [a1 cur1] eqn:Hl. cbn [snd] in Hcur. subst cur1.
  apply IH. rewrite onLine_classify in Hl. rewrite readLine_classify.
  destruct (Protocol.classify l) as [n| |].
  - injection Hl as <-. simpl. by apply names_addFile.
  - by injection Hl as <-.
  - destruct (JS.truthy_opt cur); injection Hl as <-; [|done].
    simpl. rewrite names_appendTo. destruct t; [|done].
    simpl. by rewrite names_appendTo.
Qed.

Lemma names_onBatches (bs : list (list string)) (cur : option string) (a a' : App) :
  map fileName (files a) = map fileName (files a') →
  map fileName (files (onBatches bs (a, cur)).1)
  = map fileName (files (onLines (concat bs) (a', cur)).1).
Proof.
  revert cur a a'. induction bs as [|b bs IH]; intros cur a a' Hnames; [done|].
  change (onBatches (b :: bs) (a, cur)) with (onBatches bs (onBatch b (a, cur))).
  cbn [concat]. rewrite onLines_app.
  pose proof (onLines_target b a' cur) as Hcur.
  pose proof (names_readLines (readLines b cur).2 b cur a a' Hnames) as Hb.
  unfold onBatch. cbn [fst snd].
  destruct (onLines b (a', cur)) as [a1 cur1]. cbn [fst snd] in *. subst cur1.
  destruct (readLines b cur) as [calls cur1]. cbn [fst snd] in *.
  by apply IH.
Qed.

(** X20. Which files a generation leaves, and in which order, does not
    depend on how the stream is split: the names of the File Set are the
    names that were there, in their order, then every name a marker line of
    the stream announces that was not there, in the order these names are
    first seen. *)
Theorem names_follow_the_markers (cs : list string) (a : App) :
  map fileName (files (demultiplex cs a))
  = map fileName (files a)
    ++ filter (λ n, hasFile n (files a) = false)
              (Protocol.firstSeen
                 (Protocol.headers (Protocol.completeLines (joined cs)))).
Proof.
  unfold demultiplex. rewrite names_flush, feed_st.
  cbn [start st currentFileName buffer].
  rewrite (names_onBatches _ None a a eq_refl).
  pose proof (batches_concat cs "" eq_refl) as Hlines.
  change ("" +:+ joined cs) with (joined cs) in Hlines. rewrite Hlines.
  destruct (onLines_spec (Protocol.completeLines (joined cs)) a None I) as (-> & _).
  rewrite map_map. unfold grown. cbn [receive with_content fileName].
  rewrite map_app, map_map. cbn [fileData fileName]. by rewrite map_id.
Qed.

(** ** The File Set while the stream arrives *)

(** X2. Streaming only ever appends. Whatever chunks follow, every record
    the File Set holds at some point of the stream is still there afterwards,
    at the same place, with the same name, path and type, and its earlier
    content is the beginning of its later content; the records that come in
    addition are put after them and have names that were not there. *)
Theorem streaming_only_appends (cs1 cs2 : list string) (a : App) :
  ∃ (more : FileData → string) (added : list FileData),
    files (st (feed (cs1 ++ cs2) (start a)))
    = map (λ f, with_content f (content f +:+ more f))
          (files (st (feed cs1 (start a))))
      ++ added
    ∧ Forall (λ g, hasFile (fileName g) (files (st (feed cs1 (start a)))) = false)
             added.
Proof.
  rewrite feed_app.
  destruct (extends_feed cs2 (feed cs1 (start a))) as (more & added & Hfiles & Hnew).
  by exists more, added.
Qed.

(** A chunk that completes no line leaves everything but the buffer. *)
Lemma onChunk_fragment (p : string) (r : Demux) :
  JS.indexOf JS.LF (buffer r) = None →
  JS.indexOf JS.LF p = None →
  onChunk p r
  = {| st := st r; currentFileName := currentFileName r; buffer := buffer r +:+ p |}.
Proof.
  intros Hr Hp. rewrite onChunk_batch.
  unfold Protocol.completeLines, Protocol.partialLine.
  by rewrite (cut_no_index _ (indexOf_app_None _ _ _ Hr Hp)).
Qed.

(** X3. Text after the last newline is never a marker. A final chunk
    without a newline, even one that reads [>>>FILE: name], creates no record
    and selects nothing: it is appended as text to the records of the target
    the stream had reached, and to no other. *)
Theorem trailing_fragment_is_text (cs : list string) (p : string) (a : App) :
  JS.indexOf JS.LF p = None →
  files (demultiplex (cs ++ [p]) a)
  = map (λ f, with_content f
                (content f +:+
                 (if decide (currentFileName (feed cs (start a)) = Some (fileName f))
                  then p else "")))
        (files (demultiplex cs a)).
Proof.
  intros Hp. unfold demultiplex. rewrite feed_app.
  change (feed [p] ?r) with (onChunk p r).
  rewrite (onChunk_fragment _ _ (feed_buffer cs a) Hp).
  pose proof (feed_cur_ok cs a) as Hok.
  rewrite !flush_spec by done. cbn [st currentFileName buffer].
  rewrite map_map. apply map_ext. intros f. unfold with_content. simpl.
  destruct (decide _); by rewrite !append_assoc, ?append_nil_r.
Qed.

Lemma trailing_fragment_is_text_witness :
  files (demultiplex [unlines [">>>FILE: a.txt"; "x"]; ">>>FILE: b.txt"] emptyApp)
  = [oneFile "a.txt" (unlines ["x"] +:+ ">>>FILE: b.txt")].
Proof.
  etrans.
  - apply (trailing_fragment_is_text [unlines [">>>FILE: a.txt"; "x"]]
             ">>>FILE: b.txt" emptyApp eq_refl).
  - reflexivity.
Defined.

Lemma unlines_snoc (ks : list string) (l : string) :
  unlines (ks ++ [l]) = unlines ks +:+ (l +:+ String JS.LF "").
Proof.
  induction ks as [|k ks IH]; [done|]. simpl. by rewrite IH, append_assoc.
Qed.

Lemma wholeLines_more (ls more : list string) (fs : list FileData) :
  wholeLines ls fs → wholeLines (ls ++ more) fs.
Proof.
  intros Hfs. eapply Forall_impl; [exact Hfs|].
  intros f (ks & Hks & Hsub & Hall).
  exists ks. split; [done|]. split; [|done]. by apply sublist_inserts_r.
Qed.

Lemma wholeLines_readLine t (ls : list string) (l : string)
    (cur : option string) (a : App) :
  wholeLines ls (files a) →
  wholeLines (ls ++ [l]) (files (render t (readLine l cur).1 a)).
Proof.
  intros Hfs. unfold readLine.
  destruct (JS.startsWith l MARKER) eqn:Hl.
  - destruct (JS.truthy _); [|by apply wholeLines_more].
    simpl. unfold addFile. destruct (hasFile _ _); [by apply wholeLines_more|].
    apply Forall_app. split; [by apply wholeLines_more|].
    constructor; [|constructor]. exists []. split; [done|].
    split; [apply sublist_nil_l|constructor].
  - destruct (JS.truthy_opt cur); [|by apply wholeLines_more].
    destruct t as [c|]; [|by apply wholeLines_more].
    simpl. unfold appendTo. apply Forall_map.
    eapply Forall_impl; [exact Hfs|]. intros f (ks & Hks & Hsub & Hall).
    destruct (String.eqb (fileName f) c).
    + exists (ks ++ [l]). simpl. rewrite Hks, unlines_snoc. split; [done|].
      split; [by apply sublist_app|]. apply Forall_app. by repeat constructor.
    + exists ks. split; [done|]. split; [|done]. by apply sublist_inserts_r.
Qed.

Lemma wholeLines_readLines t (more ls : list string) (cur : option string) (a : App) :
  wholeLines ls (files a) →
  wholeLines (ls ++ more) (files (render t (readLines more cur).1 a)).
Proof.
  revert ls cur a. induction more as [|l more IH]; intros ls cur a Hfs.
  - by rewrite app_nil_r.
  - rewrite readLines_cons. cbn [fst]. rewrite render_app.
    rewrite (cons_middle l ls more), app_assoc.
    by apply IH, wholeLines_readLine.
Qed.

Lemma wholeLines_onBatches (bs : list (list string)) (ls : list string)
    (a : App) (cur : option string) :
  wholeLines ls (files a) →
  wholeLines (ls ++ concat bs) (files (onBatches bs (a, cur)).1).
Proof.
  revert ls a cur. induction bs as [|b bs IH]; intros ls a cur Hfs.
  - simpl. by rewrite app_nil_r.
  - simpl. rewrite app_assoc.
    pose proof (wholeLines_readLines (readLines b cur).2 b ls cur a Hfs) as Hb.
    unfold onBatch at 1. cbn [fst snd].
    destruct (readLines b cur) as [calls cur']. by apply IH.
Qed.

(** X4. While a stream arrives, the content of a record built from nothing
    is always made of whole lines: it is a sequence of complete lines of the
    stream, in their order, each with its newline, and none of them is a
    marker line. So no file ever shows half a line before the stream ends,
    and a line that starts with [>>>FILE:] never becomes file text. *)
Theorem contents_are_whole_lines
    (cs : list string) (active : string) (loading : bool) (err : option string) :
  Forall (λ f, ∃ ks, content f = unlines ks
                     ∧ sublist ks (Protocol.completeLines (joined cs))
                     ∧ Forall (λ l, JS.startsWith l MARKER = false) ks)
         (files (st (feed cs (start (mkApp [] active loading err))))).
Proof.
  rewrite feed_st. cbn [start st currentFileName buffer].
  pose proof (batches_concat cs "" eq_refl) as Hlines.
  change ("" +:+ joined cs) with (joined cs) in Hlines. rewrite <- Hlines.
  apply (wholeLines_onBatches _ [] (mkApp [] active loading err) None).
  constructor.
Qed.

(** ** The formatting pass and the folder paths *)

Lemma formatAll_bare (E : External) (fs out : list FileData) :
  formatAll fs = Normal out →
  Forall (λ f, path f = None ∧ type f = None) out.
Proof.
  revert out. induction fs as [|f fs IH]; simpl; intros out.
  - intros [= <-]. constructor.
  - destruct (formatCode (fileName f) (content f)) as [c|]; simpl; [|done].
    destruct (formatAll fs) as [rest|]; simpl; [|done].
    intros [= <-]. constructor; [done|]. by apply IH.
Qed.

(** X5. The formatting pass that ends every generation, completed or
    failed, rebuilds each record from its name and its formatted content
    alone: the File Set it leaves has the same names in the same order, and
    no record has a path or a type any more, the folder paths computed from
    the markers included. *)
Theorem generation_forgets_folders
    (E : External) (finalPrompt : option string) (prompt : string)
    (s : Stream) (a : App) :
  JS.truthy (JS.trim (JS.or_else (default "" finalPrompt) prompt)) = true →
  isLoading a = false →
  Forall (λ f, path f = None ∧ type f = None)
         (files (handleSubmit finalPrompt prompt s a))
  ∧ map fileName (files (handleSubmit finalPrompt prompt s a))
    = map fileName (files (generate s a)).
Proof.
  intros Hprompt Hloading. unfold handleSubmit. rewrite Hprompt, Hloading.
  cbn [negb orb]. unfold formatted.
  destruct (formatAll_spec E (files (generate s a))) as (out & Hout & Hall).
  rewrite Hout. change (files (setFiles (λ _, out) (generate s a))) with out.
  split; [by apply (formatAll_bare E _ _ Hout)|].
  clear Hout. induction Hall as [|f g fs gs [Hname _] _ IH]; [done|].
  cbn [map]. by rewrite Hname, IH.
Qed.

Lemma generation_forgets_folders_witness :
  map path (files (@handleSubmit excerpt (Some "a page") ""
                     (mkStream [unlines [">>>FILE: src/a.txt"; "x"]] None) emptyApp))
  = [None]
  ∧ map path (files (generate (mkStream [unlines [">>>FILE: src/a.txt"; "x"]] None)
                       emptyApp))
    = [Some "src"].
Proof.
  split; [|reflexivity].
  destruct (generation_forgets_folders excerpt (Some "a page") ""
              (mkStream [unlines [">>>FILE: src/a.txt"; "x"]] None) emptyApp
              eq_refl eq_refl) as [Hbare Hnames].
  destruct (files (@handleSubmit excerpt (Some "a page") ""
                     (mkStream [unlines [">>>FILE: src/a.txt"; "x"]] None) emptyApp))
    as [|f [|g fs]]; [done| |done].
  apply Forall_cons in Hbare as [[Hpath _] _]. simpl. by rewrite Hpath.
Defined.

(** ** Resetting and reloading *)

Lemma projectRelated_truthy (k : string) :
  projectRelated k = true → JS.truthy k = true.
Proof. by destruct k. Qed.

(** X6. Resetting the project removes from the storage exactly the keys
    whose name contains [code], [project] or [ai], the project's own key among
    them, and leaves every other key with its value; loading from the storage
    a reset leaves gives the empty project and leaves that storage as it is. *)
Theorem reset_then_reload (E : External) (storage : gmap string string) :
  (∀ k, resetStorage storage !! k
        = if projectRelated k then None else storage !! k)
  ∧ initialFiles (resetStorage storage) = ([], resetStorage storage).
Proof.
  assert (Hlookup : ∀ k, resetStorage storage !! k
                         = if projectRelated k then None else storage !! k).
  { intros k. unfold resetStorage. destruct (projectRelated k) eqn:Hk.
    - apply sweep_lookup; [by apply projectRelated_truthy|done].
    - rewrite sweep_keeps by done. apply lookup_delete_ne.
      intros <-. by vm_compute in Hk. }
  split; [done|]. unfold initialFiles. by rewrite (Hlookup PROJECT_KEY).
Qed.

Lemma validFile_toJSON (f : FileData) : validFile (toJSONFile f) = Normal true.
Proof. reflexivity. Qed.

Lemma every_toJSON (fs : list FileData) :
  every validFile (map toJSONFile fs) = Normal true.
Proof.
  induction fs as [|f fs IH]; [done|].
  cbn [map every]. rewrite validFile_toJSON. exact IH.
Qed.

Lemma asFiles_toJSON (fs : list FileData) : asFiles (toJSON fs) = fs.
Proof.
  simpl. rewrite map_map. rewrite <- (map_id fs) at 2. apply map_ext.
  intros [n c [p|] [[]|]]; reflexivity.
Qed.

(** X7. Round trip through the storage: when [JSON.parse] reads back what
    [JSON.stringify] wrote for the File Set, the initialiser accepts it,
    whatever the File Set is, returns that File Set, records, order, paths
    and types, and leaves the storage as the effect wrote it. *)
Theorem persist_then_load
    (E : External) (stringify : list FileData → string) (a : App)
    (storage : gmap string string) :
  JS.truthy (stringify (files a)) = true →
  JSON_parse (stringify (files a)) = Normal (toJSON (files a)) →
  initialFiles (persist stringify a storage)
  = (files a, persist stringify a storage).
Proof.
  intros Htext Hparse. unfold initialFiles, persist.
  rewrite lookup_insert_eq, Htext, Hparse.
  cbn [mbind Completion_bind validProject toJSON]. rewrite every_toJSON.
  cbn [mbind Completion_bind mret Completion_ret].
  change (JArray (map toJSONFile (files a))) with (toJSON (files a)).
  by rewrite asFiles_toJSON.
Qed.

Lemma persist_then_load_witness :
  @initialFiles excerpt
    (persist (λ _, savedProject)
             (mkApp [mkFileData "a.txt" "x" None None] "a.txt" false None) ∅)
  = ([mkFileData "a.txt" "x" None None],
     persist (λ _, savedProject)
             (mkApp [mkFileData "a.txt" "x" None None] "a.txt" false None) ∅).
Proof.
  apply (persist_then_load excerpt (λ _, savedProject)
           (mkApp [mkFileData "a.txt" "x" None None] "a.txt" false None) ∅);
    reflexivity.
Defined.

Lemma initialApp_ok (E : External) (storage : gmap string string) :
  pointer_ok (initialApp storage).
Proof.
  unfold pointer_ok, initialApp. simpl.
  destruct (initialFiles storage).1 as [|f fs]; [by left|right].
  simpl. by rewrite or_else_empty, String.eqb_refl.
Qed.

(** X8. The pointer invariant holds in every state of the application:
    from whatever the storage holds at start, and through any sequence of
    edits, creations, deletions, resets, streamed lines, flushes, formatting
    passes and runs of the effect, the active pointer is empty or names a
    record of the File Set. *)
Theorem reachable_pointer_ok
    (E : External) (storage : gmap string string) (a : App) :
  reachable storage a → pointer_ok a.
Proof.
  induction 1 as [|a a' _ IH Hchange].
  - apply initialApp_ok.
  - by apply (change_keeps_pointer a a').
Qed.

Lemma reachable_pointer_ok_witness :
  pointer_ok (handleDeleteFile "a.txt"
                (handleCreateFile "b.txt" None (@initialApp excerpt goodStorage))).
Proof.
  apply (reachable_pointer_ok excerpt goodStorage).
  eapply reach_change; [eapply reach_change; [apply reach_initial|]|].
  - apply change_create.
  - apply change_delete.
Defined.

(** ** Creating and deleting files *)

Lemma existsb_lower_false (x : string) (ns : list string) :
  existsb (λ f, String.eqb (toLowerCase f) (toLowerCase x)) ns = false →
  (toLowerCase x ∉ map toLowerCase ns) ∧ x ∉ ns.
Proof.
  induction ns as [|n ns IH]; simpl.
  - intros _. split; apply not_elem_of_nil.
  - intros Hex. apply orb_false_elim in Hex as [Hn Hns].
    apply String.eqb_neq in Hn. destruct (IH Hns) as [IH1 IH2].
    split; apply not_elem_of_cons; (split; [congruence|done]).
Qed.

(** X9. Without a folder path the dialog keeps file names distinct: if the
    names of the File Set are distinct, they are distinct after the dialog is
    submitted, whatever was typed, and the same holds for names compared
    without regard to case. A blank name, or a name that is there already in
    any casing, changes nothing. *)
Theorem dialog_without_folder_keeps_names_distinct
    (name folder : string) (a : App) :
  JS.trim folder = "" →
  (NoDup (map fileName (files a)) →
   NoDup (map fileName (files (createFromDialog name folder a))))
  ∧ (NoDup (map toLowerCase (map fileName (files a))) →
     NoDup (map toLowerCase
                (map fileName (files (createFromDialog name folder a)))))
  ∧ (JS.trim name = ""
     ∨ (toLowerCase (JS.trim name) ∈ map toLowerCase (map fileName (files a))) →
     createFromDialog name folder a = a).
Proof.
  intros Hfolder. unfold createFromDialog, submitNewFile. rewrite Hfolder.
  cbn [JS.truthy String.eqb negb].
  destruct (JS.truthy (JS.trim name)) eqn:Hname; cbn [negb].
  - destruct (existsb _ _) eqn:Hex.
    + split; [done|]. split; done.
    + apply existsb_lower_false in Hex as [Hlow Hin].
      cbn [handleCreateFile setActiveFileName setFiles files].
      rewrite !map_app. cbn [map].
      split; [|split].
      * intros Hnd. apply NoDup_app. split; [done|].
        split; [|apply NoDup_singleton].
        intros x Hx Hx'. apply list_elem_of_singleton in Hx' as ->. done.
      * intros Hnd. apply NoDup_app. split; [done|].
        split; [|apply NoDup_singleton].
        intros x Hx Hx'. apply list_elem_of_singleton in Hx' as ->. done.
      * intros [Hblank|Hthere]; [|done].
        rewrite Hblank in Hname. done.
  - split; [done|]. split; done.
Qed.

Lemma dialog_without_folder_keeps_names_distinct_witness :
  NoDup (map fileName
           (files (createFromDialog " Index.HTML " " "
                     (mkApp [oneFile "index.html" ""] "index.html" false None))))
  ∧ createFromDialog " Index.HTML " " "
      (mkApp [oneFile "index.html" ""] "index.html" false None)
    = mkApp [oneFile "index.html" ""] "index.html" false None.
Proof.
  destruct (dialog_without_folder_keeps_names_distinct " Index.HTML " " "
              (mkApp [oneFile "index.html" ""] "index.html" false None) eq_refl)
    as (Hnames & _ & Hsame).
  split.
  - apply Hnames. apply (bool_decide_unpack _); by vm_compute.
  - apply Hsame. right. apply (bool_decide_unpack _). by vm_compute.
Defined.

(** X10. With a folder path the dialog can duplicate a name. It compares
    the existing names with [folder/name] but the record is created under
    [name] alone: if a record of that name exists, a folder is given and
    [folder/name] is no existing name in any casing, the dialog adds a second
    record with the same [fileName], which differs only by its path. *)
Theorem dialog_with_folder_duplicates_name (name folder : string) (a : App) :
  JS.truthy (JS.trim folder) = true →
  hasFile (JS.trim name) (files a) = true →
  JS.truthy (JS.trim name) = true →
  existsb (λ f, String.eqb (toLowerCase f)
                  (toLowerCase (JS.trim folder +:+ "/" +:+ JS.trim name)))
          (map fileName (files a)) = false →
  files (createFromDialog name folder a)
  = files a ++ [ {| fileName := JS.trim name; content := "";
                    path := Some (JS.trim folder); type := Some file |} ]
  ∧ ¬ NoDup (map fileName (files (createFromDialog name folder a))).
Proof.
  intros Hfolder Hthere Hname Hfree.
  unfold createFromDialog, submitNewFile. rewrite Hname, Hfolder. cbn [negb].
  rewrite Hfree. cbn [handleCreateFile setActiveFileName setFiles files default].
  unfold id. rewrite or_else_empty.
  split; [done|]. rewrite map_app. cbn [map]. intros Hnd.
  apply NoDup_app in Hnd as (_ & Hdisjoint & _).
  apply hasFile_true in Hthere.
  apply (Hdisjoint _ Hthere). apply list_elem_of_here.
Qed.

Lemma dialog_with_folder_duplicates_name_witness :
  map fileName
      (files (createFromDialog "App.jsx" "src"
                (mkApp [oneFile "App.jsx" "x"] "App.jsx" false None)))
  = ["App.jsx"; "App.jsx"].
Proof.
  destruct (dialog_with_folder_duplicates_name "App.jsx" "src"
              (mkApp [oneFile "App.jsx" "x"] "App.jsx" false None)
              eq_refl eq_refl eq_refl eq_refl) as [Hfiles _].
  rewrite Hfiles. reflexivity.
Defined.

Lemma filter_none_named (n : string) (fs : list FileData) :
  hasFile n fs = false →
  filter (λ f, String.eqb (fileName f) n = false) fs = fs.
Proof.
  induction fs as [|f fs IH]; [done|]. simpl.
  intros Hn. apply orb_false_elim in Hn as [Hf Hfs].
  rewrite filter_cons. destruct (decide _); [|congruence]. by rewrite IH.
Qed.

(** X11. Creating a file under a name that is not in the File Set and
    deleting it again gives the File Set back as it was; the pointer does not
    return to the file it named before but goes to the first record (or to
    the empty name if there is none). *)
Theorem create_then_delete (n : string) (p : option string) (a : App) :
  hasFile n (files a) = false →
  files (handleDeleteFile n (handleCreateFile n p a)) = files a
  ∧ activeFileName (handleDeleteFile n (handleCreateFile n p a))
    = firstFileName (files a).
Proof.
  intros Hn. unfold handleDeleteFile, handleCreateFile.
  cbn [setActiveFileName setFiles files activeFileName].
  rewrite String.eqb_refl, filter_app, (filter_none_named _ _ Hn).
  rewrite filter_cons. cbn [fileName]. rewrite String.eqb_refl.
  destruct (decide (true = false)); [done|].
  rewrite filter_nil, app_nil_r. done.
Qed.

Lemma create_then_delete_witness :
  files (handleDeleteFile "c.txt"
           (handleCreateFile "c.txt" None
              (mkApp [oneFile "a.txt" "x"; oneFile "b.txt" "y"] "b.txt" false None)))
  = [oneFile "a.txt" "x"; oneFile "b.txt" "y"]
  ∧ activeFileName
      (handleDeleteFile "c.txt"
         (handleCreateFile "c.txt" None
            (mkApp [oneFile "a.txt" "x"; oneFile "b.txt" "y"] "b.txt" false None)))
    = "a.txt".
Proof.
  apply (create_then_delete "c.txt" None
           (mkApp [oneFile "a.txt" "x"; oneFile "b.txt" "y"] "b.txt" false None)).
  reflexivity.
Defined.

Lemma filter_distinct_length (n : string) (fs : list FileData) :
  NoDup (map fileName fs) →
  length fs ≤ S (length (filter (λ f, String.eqb (fileName f) n = false) fs)).
Proof.
  induction fs as [|f fs IH]; simpl; [lia|]. intros Hnd.
  apply NoDup_cons in Hnd as [Hf Hnd]. rewrite filter_cons.
  destruct (decide _) as [Hne|Heq]; simpl; [specialize (IH Hnd); lia|].
  apply not_false_iff_true, String.eqb_eq in Heq as <-.
  rewrite filter_none_named; [lia|].
  destruct (hasFile (fileName f) fs) eqn:Hin; [|done].
  by apply hasFile_true in Hin.
Qed.

(** X12. The delete button is shown only while the File Set has more than
    one record. When it has, and its names are distinct and the pointer names
    one of them, deleting any name leaves at least one record and a pointer
    that names a record of what is left. *)
Theorem delete_leaves_a_file (n : string) (a : App) :
  NoDup (map fileName (files a)) →
  1 < length (files a) →
  hasFile (activeFileName a) (files a) = true →
  files (handleDeleteFile n a) ≠ []
  ∧ hasFile (activeFileName (handleDeleteFile n a))
            (files (handleDeleteFile n a)) = true.
Proof.
  intros Hnd Hlen Hactive.
  pose proof (filter_distinct_length n (files a) Hnd) as Hleft.
  unfold handleDeleteFile.
  destruct (filter _ (files a)) as [|f fs] eqn:Hfilter; [simpl in Hleft; lia|].
  destruct (String.eqb (activeFileName a) n) eqn:Hn;
    cbn [setActiveFileName setFiles files activeFileName]; (split; [done|]).
  - simpl. by rewrite or_else_empty, String.eqb_refl.
  - rewrite <- Hfilter, hasFile_filter, Hactive, Hn. done.
Qed.

Lemma delete_leaves_a_file_witness :
  files (handleDeleteFile "a.txt"
           (mkApp [oneFile "a.txt" "x"; oneFile "b.txt" "y"] "a.txt" false None))
  ≠ []
  ∧ hasFile
      (activeFileName
         (handleDeleteFile "a.txt"
            (mkApp [oneFile "a.txt" "x"; oneFile "b.txt" "y"] "a.txt" false None)))
      (files (handleDeleteFile "a.txt"
                (mkApp [oneFile "a.txt" "x"; oneFile "b.txt" "y"] "a.txt" false None)))
    = true.
Proof.
  apply (delete_leaves_a_file "a.txt"
           (mkApp [oneFile "a.txt" "x"; oneFile "b.txt" "y"] "a.txt" false None)).
  - apply (bool_decide_unpack _); by vm_compute.
  - simpl. lia.
  - reflexivity.
Defined.

(** ** The preview *)

Lemma take_drop (k : nat) (s : string) : JS.take k s +:+ JS.drop k s = s.
Proof.
  revert k. induction s as [|c s IH]; intros [|k]; simpl; try done.
  by rewrite IH.
Qed.

Lemma drop_length_app (pre s : string) :
  JS.drop (String.length pre) (pre +:+ s) = s.
Proof. induction pre as [|c pre IH]; simpl; done. Qed.

Lemma length_append (s t : string) :
  String.length (s +:+ t) = String.length s + String.length t.
Proof. induction s as [|c s IH]; simpl; [done|]. by rewrite IH. Qed.

Lemma endsWith_take (n p : string) :
  JS.endsWith n p = true →
  JS.take (String.length n - String.length p) n +:+ p = n.
Proof.
  unfold JS.endsWith. intros Hp. apply String.eqb_eq in Hp.
  set (k := String.length n - String.length p) in *.
  rewrite <- Hp. apply take_drop.
Qed.

Lemma endsWith_other (n p q : string) :
  JS.endsWith n p = true →
  String.length q ≤ String.length p →
  JS.endsWith n q = JS.endsWith p q.
Proof.
  intros Hp Hlen. apply endsWith_take in Hp.
  set (pre := JS.take _ n) in Hp. rewrite <- Hp. unfold JS.endsWith.
  rewrite length_append.
  replace (String.length pre + String.length p - String.length q)
    with (String.length pre + (String.length p - String.length q)) by lia.
  f_equal. clear Hp. induction pre as [|c pre IH]; simpl; done.
Qed.

Lemma find_insert (p : FileData → bool) (h : FileData) (l1 l2 : list FileData) :
  p h = false → List.find p (l1 ++ h :: l2) = List.find p (l1 ++ l2).
Proof.
  intros Hh. induction l1 as [|f l1 IH]; simpl; [by rewrite Hh|].
  by destruct (p f).
Qed.

Lemma filter_insert (p : FileData → bool) (h : FileData) (l1 l2 : list FileData) :
  p h = false →
  filter (λ f, p f = true) (l1 ++ h :: l2) = filter (λ f, p f = true) (l1 ++ l2).
Proof.
  intros Hh. rewrite !filter_app, filter_cons.
  destruct (decide _); [congruence|done].
Qed.

(** X13. Once the File Set holds a React file, markup files play no part in
    the preview: putting a file whose name ends in [.html] anywhere into the
    File Set, or taking it out, leaves the style text, the script sources and
    the entry component of the React page the same. *)
Theorem react_page_ignores_markup (fs1 fs2 : list FileData) (h : FileData) :
  JS.endsWith (fileName h) ".html" = true →
  filter (λ f, isReactFile f = true) (fs1 ++ fs2) ≠ [] →
  htmlContent (fs1 ++ h :: fs2) = htmlContent (fs1 ++ fs2)
  ∧ ∃ style sources entry,
      htmlContent (fs1 ++ fs2) = ReactPage style sources entry.
Proof.
  intros Hh Hreact.
  assert (Hext : ∀ q, String.length q ≤ 5 →
                      JS.endsWith (fileName h) q = JS.endsWith ".html" q).
  { intros q Hq. by apply endsWith_other. }
  assert (isReactFile h = false) as Hr.
  { unfold isReactFile. by rewrite !Hext by (simpl; lia). }
  assert (isScriptFile h = false) as Hs.
  { unfold isScriptFile. by rewrite !Hext by (simpl; lia). }
  assert (isStyleFile h = false) as Hc.
  { unfold isStyleFile. by rewrite !Hext by (simpl; lia). }
  unfold htmlContent, cssContent.
  rewrite !(filter_insert _ h) by done.
  destruct (filter (λ f, isReactFile f = true) (fs1 ++ fs2)) as [|r rs] eqn:Hrs;
    [done|].
  unfold mainComponent. simpl head.
  destruct (List.find isEntryName (r :: rs)); eauto.
Qed.

Lemma react_page_ignores_markup_witness :
  htmlContent [oneFile "index.html" "<p>one</p>"; oneFile "App.jsx" "x"]
  = htmlContent [oneFile "App.jsx" "x"].
Proof.
  apply (react_page_ignores_markup [] [oneFile "App.jsx" "x"]
           (oneFile "index.html" "<p>one</p>")).
  - reflexivity.
  - discriminate.
Defined.

Lemma no_react_file (fs : list FileData) :
  filter (λ f, isReactFile f = true) fs = [] →
  Forall (λ f, isReactFile f = false) fs.
Proof.
  induction fs as [|f fs IH]; [constructor|].
  rewrite filter_cons. destruct (decide _) as [|Hf]; [done|].
  intros Hfs. constructor; [by destruct (isReactFile f)|by apply IH].
Qed.

Lemma mainComponent_None (rs : list FileData) : mainComponent rs = None → rs = [].
Proof.
  unfold mainComponent. destruct (List.find isEntryName rs); [done|].
  by destruct rs.
Qed.

Lemma plain_scripts_all (fs : list FileData) :
  Forall (λ f, isReactFile f = false) fs →
  filter (λ f, isPlainScript f = true) fs
  = filter (λ f, JS.endsWith (fileName f) ".js" = true) fs.
Proof.
  induction 1 as [|f fs Hf _ IH]; [done|].
  rewrite !filter_cons, IH. unfold isPlainScript.
  unfold isReactFile in Hf. apply orb_false_elim in Hf as [_ Hf].
  destruct (JS.endsWith (fileName f) ".js"); simpl in *; [|done].
  rewrite Hf. done.
Qed.

(** X14. On the plain page the test that leaves out scripts mentioning
    React removes nothing: the plain page is built only when there is no
    React file, and then the script text prepared for the document is made
    of all the files whose name ends in [.js], in the order of the File Set,
    joined by a semicolon and a newline. *)
Theorem plain_page_takes_every_script
    (fs : list FileData) (markup : string) (style script : option string) :
  htmlContent fs = PlainPage markup style script →
  filter (λ f, isPlainScript f = true) fs
  = filter (λ f, JS.endsWith (fileName f) ".js" = true) fs
  ∧ script
    = (if 0 <? length (filter (λ f, JS.endsWith (fileName f) ".js" = true) fs)
       then Some (join (";" +:+ String JS.LF "")
                       (map content
                            (filter (λ f, JS.endsWith (fileName f) ".js" = true) fs)))
       else None).
Proof.
  unfold htmlContent.
  destruct (mainComponent _) as [main|] eqn:Hmain; [done|].
  apply mainComponent_None, no_react_file, plain_scripts_all in Hmain.
  destruct (List.find isMarkupFile fs); [|done].
  intros [= _ _ <-]. by rewrite Hmain.
Qed.

Lemma plain_page_takes_every_script_witness :
  filter (λ f, isPlainScript f = true)
         [oneFile "index.html" "<p>"; oneFile "a.js" "f()"; oneFile "b.js" "g()"]
  = [oneFile "a.js" "f()"; oneFile "b.js" "g()"].
Proof.
  destruct (plain_page_takes_every_script
              [oneFile "index.html" "<p>"; oneFile "a.js" "f()"; oneFile "b.js" "g()"]
              "<p>" None (Some ("f();" +:+ String JS.LF "g()")) eq_refl)
    as [Hall _].
  rewrite Hall. reflexivity.
Defined.

Lemma find_first (p : FileData → bool) (l : list FileData) (f : FileData) :
  List.find p l = Some f →
  ∃ l1 l2, l = l1 ++ f :: l2 ∧ Forall (λ g, p g = false) l1 ∧ p f = true.
Proof.
  induction l as [|a l IH]; simpl; [done|].
  destruct (p a) eqn:Ha.
  - intros [= <-]. exists [], l. done.
  - intros Hfind. destruct (IH Hfind) as (l1 & l2 & -> & Hl1 & Hf).
    exists (a :: l1), l2. split; [done|]. split; [by constructor|done].
Qed.

Lemma find_none_all (p : FileData → bool) (l : list FileData) :
  List.find p l = None → Forall (λ g, p g = false) l.
Proof.
  induction l as [|a l IH]; simpl; [constructor|].
  destruct (p a) eqn:Ha; [done|]. intros Hfind. constructor; [done|by apply IH].
Qed.

(** X15. The React page always has an entry component, and it is a React
    file of the File Set: the first one, in the order of the File Set, whose
    name contains [App], [index] or [main] (no React file before it has such
    a name), or else, when no React file has such a name, the first React
    file. The name the page mounts is that file's name with its extension
    taken off and nothing else, a folder prefix staying in it. *)
Theorem react_page_entry
    (fs : list FileData) (style : string) (sources : list string) (entry : string) :
  htmlContent fs = ReactPage style sources entry →
  ∃ f ext before after,
    filter (λ g, isReactFile g = true) fs = before ++ f :: after
    ∧ f ∈ fs
    ∧ isReactFile f = true
    ∧ fileName f = entry +:+ ext
    ∧ ext ∈ [".js"; ".jsx"; ".tsx"]
    ∧ Forall (λ g, isEntryName g = false) before
    ∧ (isEntryName f = true
       ∨ (before = []
          ∧ Forall (λ g, isReactFile g = true → isEntryName g = false) fs)).
Proof.
  unfold htmlContent.
  destruct (mainComponent _) as [main|] eqn:Hmain; [|by destruct (List.find _ _)].
  intros [= _ _ <-].
  assert (Hfirst : ∃ before after,
            filter (λ g, isReactFile g = true) fs = before ++ main :: after
            ∧ Forall (λ g, isEntryName g = false) before
            ∧ (isEntryName main = true
               ∨ (before = []
                  ∧ Forall (λ g, isReactFile g = true → isEntryName g = false) fs))).
  { unfold mainComponent in Hmain.
    destruct (List.find isEntryName _) as [f|] eqn:Hfind.
    - injection Hmain as ->.
      destruct (find_first _ _ _ Hfind) as (l1 & l2 & Hsplit & Hl1 & Hp).
      exists l1, l2. auto.
    - destruct (filter _ fs) as [|g rest] eqn:Hreact; [done|].
      injection Hmain as ->. exists [], rest. split; [done|].
      split; [constructor|]. right. split; [done|].
      apply Forall_forall. intros g Hg Hg'.
      apply find_none_all in Hfind. rewrite Forall_forall in Hfind.
      apply Hfind. rewrite <- Hreact. by apply list_elem_of_filter. }
  destruct Hfirst as (before & after & Hsplit & Hbefore & Hentry).
  assert (Hin : main ∈ filter (λ g, isReactFile g = true) fs).
  { rewrite Hsplit. apply elem_of_app. right. apply list_elem_of_here. }
  apply list_elem_of_filter in Hin as [Hreact Hin].
  assert (∃ ext, ext ∈ [".js"; ".jsx"; ".tsx"]
                 ∧ fileName main = stripScriptExtension (fileName main) +:+ ext)
    as (ext & Hext & Hname).
  { unfold isReactFile in Hreact. unfold stripScriptExtension.
    destruct (JS.endsWith (fileName main) ".jsx") eqn:Hjsx.
    { exists ".jsx". split; [apply list_elem_of_In; simpl; auto|].
      cbn [orb]. symmetry. exact (endsWith_take _ ".jsx" Hjsx). }
    destruct (JS.endsWith (fileName main) ".tsx") eqn:Htsx.
    { exists ".tsx". split; [apply list_elem_of_In; simpl; auto|].
      cbn [orb]. symmetry. exact (endsWith_take _ ".tsx" Htsx). }
    cbn [orb] in Hreact. apply andb_true_iff in Hreact as [Hjs _].
    rewrite Hjs. cbn [orb].
    exists ".js". split; [apply list_elem_of_In; simpl; auto|].
    symmetry. exact (endsWith_take _ ".js" Hjs). }
  exists main, ext, before, after. done.
Qed.

Lemma react_page_entry_witness :
  ∃ f ext before after,
    filter (λ g, isReactFile g = true)
           [oneFile "ui/Card.tsx" "x"; oneFile "ui/App.jsx" "y"; oneFile "main.jsx" "z"]
    = before ++ f :: after
    ∧ fileName f = "ui/App" +:+ ext
    ∧ Forall (λ g, isEntryName g = false) before.
Proof.
  destruct (react_page_entry
              [oneFile "ui/Card.tsx" "x"; oneFile "ui/App.jsx" "y"; oneFile "main.jsx" "z"]
              "" ["x"; "y"; "z"] "ui/App" eq_refl)
    as (f & ext & before & after & Hsplit & _ & _ & Hname & _ & Hbefore & _).
  by exists f, ext, before, after.
Defined.

(** ** The editor language *)

Lemma split_not_nil (sep : ascii) (s : string) : split sep s ≠ [].
Proof.
  induction s as [|c s IH]; simpl; [done|].
  destruct (Ascii.eqb c sep); [done|]. by destruct (split sep s).
Qed.

Lemma last_cons_cons {A} (x y : A) (l : list A) : last (x :: y :: l) = last (y :: l).
Proof. reflexivity. Qed.

Lemma split_after_sep (sep : ascii) (pre e : string) :
  ∃ h t, split sep (pre +:+ String sep e) = h :: t
         ∧ t ≠ []
         ∧ last t = last (split sep e).
Proof.
  induction pre as [|c pre (h & t & Hsplit & Ht & Hlast)]; simpl.
  - rewrite Ascii.eqb_refl. exists "", (split sep e).
    split; [done|]. split; [apply split_not_nil|done].
  - rewrite Hsplit. destruct (Ascii.eqb c sep).
    + exists "", (h :: t). split; [done|]. split; [done|].
      destruct t; [done|]. by rewrite last_cons_cons.
    + exists (String c h), t. done.
Qed.

Lemma last_segment (pre e : string) :
  last (split "." (pre +:+ String "." e)) = last (split "." e).
Proof.
  destruct (split_after_sep "." pre e) as (h & t & -> & Ht & <-).
  destruct t; [done|]. apply last_cons_cons.
Qed.

(** X16. Every file the formatter has a parser for is opened in the editor
    with the language of that parser: [html] for the html parser, [css] for
    the css parser, [javascript] or [typescript] for the babel parser. (The
    editor lowers the case of the extension and the formatter does not, so
    the converse fails.) *)
Theorem formatted_files_have_their_language (fileName : string) (parser : Parser) :
  getParser fileName = Some parser →
  match parser with
  | html => getLanguage fileName = "html"
  | css => getLanguage fileName = "css"
  | babel => getLanguage fileName = "javascript"
             ∨ getLanguage fileName = "typescript"
  end.
Proof.
  assert (Hlang : ∀ e, JS.endsWith fileName (String "." e) = true →
                       getLanguage fileName
                       = getLanguage (String "." e)).
  { intros e He. apply endsWith_take in He.
    set (pre := JS.take _ fileName) in He. rewrite <- He.
    pose proof (last_segment "" e) as Hdot.
    change ("" +:+ String "." e) with (String "." e) in Hdot.
    unfold getLanguage. by rewrite (last_segment pre e), Hdot. }
  unfold getParser.
  destruct (JS.endsWith fileName ".html") eqn:Hhtml.
  { intros [= <-]. by rewrite (Hlang _ Hhtml). }
  destruct (JS.endsWith fileName ".css") eqn:Hcss.
  { intros [= <-]. by rewrite (Hlang _ Hcss). }
  destruct (JS.endsWith fileName ".js") eqn:Hjs.
  { intros [= <-]. left. by rewrite (Hlang _ Hjs). }
  destruct (JS.endsWith fileName ".jsx") eqn:Hjsx.
  { intros [= <-]. left. by rewrite (Hlang _ Hjsx). }
  destruct (JS.endsWith fileName ".ts") eqn:Hts.
  { intros [= <-]. right. by rewrite (Hlang _ Hts). }
  destruct (JS.endsWith fileName ".tsx") eqn:Htsx; [|done].
  intros [= <-]. right. by rewrite (Hlang _ Htsx).
Qed.

Lemma formatted_files_have_their_language_witness :
  getLanguage "src/styles/site.min.css" = "css".
Proof.
  apply (formatted_files_have_their_language "src/styles/site.min.css" css).
  reflexivity.
Defined.

(** ** What a completed generation leaves besides the files *)

Lemma target_Some (m : string) (ls : list string) :
  Protocol.target (Some m) ls = Some (default m (Protocol.target None ls)).
Proof.
  revert m. induction ls as [|l ls IH]; intros m; [done|].
  simpl. destruct (Protocol.classify l) as [n| |]; [|apply IH..].
  rewrite (IH n). reflexivity.
Qed.

Lemma render_flags t (calls : list Call) (a : App) :
  error (render t calls a) = error a ∧ isLoading (render t calls a) = isLoading a.
Proof.
  revert a. induction calls as [|c calls IH]; intros a; [done|].
  simpl. destruct (IH (runCall t a c)) as [-> ->].
  destruct c; [done..|]. by destruct t.
Qed.

Lemma target_app (cur : option string) (ls1 ls2 : list string) :
  Protocol.target cur (ls1 ++ ls2) = Protocol.target (Protocol.target cur ls1) ls2.
Proof.
  revert cur. induction ls1 as [|l ls1 IH]; intros cur; [done|].
  simpl. by destruct (Protocol.classify l).
Qed.

Lemma render_active t (ls : list string) (cur : option string) (a : App) :
  activeFileName (render t (readLines ls cur).1 a)
  = default (activeFileName a) (Protocol.target None ls).
Proof.
  revert cur a. induction ls as [|l ls IH]; intros cur a; [done|].
  rewrite readLines_cons. cbn [fst]. rewrite render_app, IH, readLine_classify.
  simpl. destruct (Protocol.classify l) as [n| |]; simpl.
  - by rewrite target_Some.
  - done.
  - destruct (JS.truthy_opt cur); [|done]. by destruct t.
Qed.

Lemma onBatches_flags (bs : list (list string)) (a : App) (cur : option string) :
  error (onBatches bs (a, cur)).1 = error a
  ∧ isLoading (onBatches bs (a, cur)).1 = isLoading a
  ∧ activeFileName (onBatches bs (a, cur)).1
    = default (activeFileName a) (Protocol.target None (concat bs)).
Proof.
  revert a cur. induction bs as [|b bs IH]; intros a cur; [done|].
  change (onBatches (b :: bs) (a, cur)) with (onBatches bs (onBatch b (a, cur))).
  unfold onBatch. cbn [fst snd concat].
  pose proof (render_active (readLines b cur).2 b cur a) as Hb.
  pose proof (render_flags (readLines b cur).2 (readLines b cur).1 a) as [He Hl].
  destruct (readLines b cur) as [calls cur']. cbn [fst snd] in *.
  destruct (IH (render cur' calls a) cur') as (-> & -> & ->).
  rewrite He, Hl, Hb, target_app. split; [done|]. split; [done|].
  destruct (Protocol.target None b) as [m|]; [|done].
  by rewrite target_Some.
Qed.

(** X17. A generation that completes clears the error message, ends with
    the loading flag down, and leaves the active pointer on the file of the
    last marker of the stream, or where it was if the stream had no
    marker. *)
Theorem completed_generation_flags (cs : list string) (a : App) :
  error (generate (mkStream cs None) a) = None
  ∧ isLoading (generate (mkStream cs None) a) = false
  ∧ activeFileName (generate (mkStream cs None) a)
    = default (activeFileName a)
              (Protocol.target None (Protocol.completeLines (joined cs))).
Proof.
  unfold generate. cbn [chunks thrown].
  set (r := feed cs (start (setError None (setIsLoading true a)))).
  destruct (onBatches_flags (batches "" cs)
              (setError None (setIsLoading true a)) None) as (Herr & _ & Hactive).
  pose proof (batches_concat cs "" eq_refl) as Hlines.
  change ("" +:+ joined cs) with (joined cs) in Hlines. rewrite Hlines in Hactive.
  change (onBatches (batches "" cs) (setError None (setIsLoading true a), None))
    with (onBatches (batches (buffer (start (setError None (setIsLoading true a)))) cs)
            (st (start (setError None (setIsLoading true a))),
             currentFileName (start (setError None (setIsLoading true a)))))
    in Herr, Hactive.
  rewrite <- feed_st in Herr, Hactive. fold r in Herr, Hactive.
  unfold flush.
  destruct (_ && _); cbn [setIsLoading setFiles error isLoading activeFileName];
    rewrite Herr, Hactive; done.
Qed.

(** ** The folder tree *)

Lemma leaves_app (cs ds : list Child) : leaves (cs ++ ds) = leaves cs ++ leaves ds.
Proof. unfold leaves. apply omap_app. Qed.

Lemma pushChild_lookup (k j : string) (c : Child) (m : gmap string FolderNode) :
  pushChild k c m !! j
  = if decide (k = j)
    then (λ n, {| folderName := folderName n; folderParent := folderParent n;
                  children := children n ++ [c] |}) <$> m !! j
    else m !! j.
Proof.
  unfold pushChild. destruct (decide (k = j)) as [->|Hne].
  - destruct (m !! j) as [n|] eqn:Hn; simpl.
    + by rewrite lookup_insert_eq.
    + by rewrite Hn.
  - destruct (m !! k); [by rewrite lookup_insert_ne|done].
Qed.

Lemma pushChild_is_Some (k j : string) (c : Child) (m : gmap string FolderNode) :
  is_Some (pushChild k c m !! j) ↔ is_Some (m !! j).
Proof.
  rewrite pushChild_lookup. destruct (decide _); [|done].
  by rewrite fmap_is_Some.
Qed.

Lemma addFolder_keys (parts : list string) (t : TreeView) (cur : string) :
  ∀ k, is_Some (folderMap (fold_left addFolder parts (t, cur)).1 !! k)
       ↔ is_Some (folderMap t !! k) ∨ k ∈ folderKeys cur parts.
Proof.
  revert t cur. induction parts as [|part parts IH]; intros t cur k.
  - simpl. rewrite elem_of_nil. tauto.
  - cbn [fold_left folderKeys]. unfold addFolder at 2.
    set (key := if JS.truthy cur then cur +:+ "/" +:+ part else part).
    rewrite elem_of_cons.
    destruct (folderMap t !! key) as [n|] eqn:Hkey.
    + rewrite IH. split; [tauto|].
      intros [H|[->|H]]; auto; left; by rewrite Hkey.
    + destruct (String.eqb cur ""); rewrite IH; cbn [folderMap];
        rewrite ?pushChild_is_Some, lookup_insert_is_Some';
        (split; [intros [[->|H]|H]; auto|intros [H|[->|H]]; auto]).
Qed.

Lemma addFolder_noLeaves (parts : list string) (t : TreeView) (cur : string) :
  noLeaves t → noLeaves (fold_left addFolder parts (t, cur)).1.
Proof.
  revert t cur. induction parts as [|part parts IH]; intros t cur Ht; [done|].
  cbn [fold_left]. unfold addFolder at 2.
  set (key := if JS.truthy cur then cur +:+ "/" +:+ part else part).
  destruct Ht as [Htree Hmap].
  destruct (folderMap t !! key) as [n|] eqn:Hkey; [by apply IH|].
  destruct (String.eqb cur ""); apply IH; split; cbn [tree folderMap].
  - by rewrite leaves_app, Htree.
  - intros k n. rewrite lookup_insert. destruct (decide (key = k)).
    + by intros [= <-].
    + apply Hmap.
  - done.
  - intros k n. rewrite pushChild_lookup.
    destruct (decide (cur = k)) as [->|_].
    + rewrite lookup_insert. destruct (decide (key = k)).
      * by intros [= <-].
      * destruct (folderMap t !! k) as [n'|] eqn:Hn'; [|done].
        intros [= <-]. cbn [children]. rewrite leaves_app.
        by rewrite (Hmap _ _ Hn').
    + rewrite lookup_insert. destruct (decide (key = k)).
      * by intros [= <-].
      * apply Hmap.
Qed.

Lemma first_pass (fs : list FileData) (t : TreeView) :
  noLeaves t →
  noLeaves (fold_left addFolders fs t)
  ∧ ∀ k, is_Some (folderMap (fold_left addFolders fs t) !! k)
         ↔ is_Some (folderMap t !! k)
           ∨ ∃ f, f ∈ fs ∧ JS.truthy_opt (path f) = true
                  ∧ k ∈ folderKeys "" (split "/" (default "" (path f))).
Proof.
  revert t. induction fs as [|f fs IH]; intros t Ht.
  - split; [done|]. intros k. split; [auto|].
    intros [H|(f & Hf & _)]; [done|]. by apply elem_of_nil in Hf.
  - cbn [fold_left]. unfold addFolders at 2 4.
    destruct (JS.truthy_opt (path f)) eqn:Hpath.
    + destruct (IH _ (addFolder_noLeaves (split "/" (default "" (path f))) t "" Ht))
        as [Hno Hkeys].
      split; [done|]. intros k. rewrite Hkeys, addFolder_keys.
      split.
      * intros [[H|H]|(g & Hg & Hgp & Hk)]; auto.
        -- right. exists f. split; [apply list_elem_of_here|done].
        -- right. exists g. split; [by apply list_elem_of_further|done].
      * intros [H|(g & Hg & Hgp & Hk)]; auto.
        apply elem_of_cons in Hg as [->|Hg]; auto. right. by exists g.
    + destruct (IH _ Ht) as [Hno Hkeys]. split; [done|].
      intros k. rewrite Hkeys. split.
      * intros [H|(g & Hg & Hgp & Hk)]; auto.
        right. exists g. split; [by apply list_elem_of_further|done].
      * intros [H|(g & Hg & Hgp & Hk)]; auto.
        apply elem_of_cons in Hg as [->|Hg]; [congruence|]. right. by exists g.
Qed.

Lemma second_pass (fs : list FileData) (t : TreeView) :
  leaves (tree (fold_left addFile_to_tree fs t))
  = leaves (tree t) ++ filter (λ f, JS.truthy_opt (path f) = false) fs
  ∧ ∀ k, match folderMap t !! k with
         | Some n =>
             ∃ n', folderMap (fold_left addFile_to_tree fs t) !! k = Some n'
                   ∧ leaves (children n')
                     = leaves (children n)
                       ++ filter (λ f, JS.truthy_opt (path f) = true
                                       ∧ path f = Some k) fs
         | None => folderMap (fold_left addFile_to_tree fs t) !! k = None
         end.
Proof.
  revert t. induction fs as [|f fs IH]; intros t.
  - split; [by rewrite app_nil_r|]. intros k. simpl.
    destruct (folderMap t !! k) as [n|]; [|done].
    exists n. by rewrite filter_nil, app_nil_r.
  - cbn [fold_left]. destruct (IH (addFile_to_tree t f)) as [IHtree IHmap].
    split.
    + rewrite IHtree, filter_cons. unfold addFile_to_tree.
      destruct (JS.truthy_opt (path f)); cbn [tree].
      * by destruct (decide (true = false)).
      * destruct (decide (false = false)) as [_|]; [|done].
        rewrite leaves_app. simpl. by rewrite <- app_assoc.
    + intros k. specialize (IHmap k). rewrite filter_cons.
      unfold addFile_to_tree in IHmap at 1.
      destruct (JS.truthy_opt (path f)) eqn:Hpath; cbn [folderMap] in IHmap.
      * rewrite pushChild_lookup in IHmap.
        destruct (decide (default "" (path f) = k)) as [Hk|Hk].
        -- destruct (folderMap t !! k) as [n|] eqn:Hn; simpl in IHmap; [|done].
           destruct IHmap as (n' & Hn' & Hleaves). exists n'. split; [done|].
           rewrite Hleaves. cbn [children]. rewrite leaves_app. simpl.
           destruct (decide _) as [_|Hno]; [by rewrite <- app_assoc|].
           destruct Hno. split; [done|]. destruct (path f); by simplify_eq/=.
        -- destruct (folderMap t !! k) as [n|] eqn:Hn; [|done].
           destruct IHmap as (n' & Hn' & Hleaves). exists n'. split; [done|].
           rewrite Hleaves. destruct (decide _) as [[_ Hyes]|_]; [|done].
           rewrite Hyes in Hk. done.
      * destruct (folderMap t !! k) as [n|]; [|done].
        destruct IHmap as (n' & Hn' & Hleaves). exists n'. split; [done|].
        rewrite Hleaves. destruct (decide _) as [[Hyes _]|_]; [congruence|done].
Qed.

Lemma split_parts_plain (sep : ascii) (s : string) :
  Forall (λ part, JS.indexOf sep part = None) (split sep s).
Proof.
  induction s as [|c s IH]; simpl; [by constructor|].
  destruct (Ascii.eqb c sep) eqn:Hc; [by constructor|].
  destruct (split sep s) as [|h t]; [by constructor; [simpl; rewrite Hc|]|].
  apply Forall_cons in IH as [Hh Ht]. constructor; [|done].
  simpl. by rewrite Hc, Hh.
Qed.

Lemma folderKeys_no_slash (parts : list string) (cur : string) :
  JS.startsWith cur "/" = false →
  Forall (λ part, JS.indexOf "/" part = None) parts →
  Forall (λ k, JS.startsWith k "/" = false) (folderKeys cur parts).
Proof.
  intros Hcur Hparts. revert cur Hcur.
  induction Hparts as [|part parts Hpart _ IH]; intros cur Hcur; [constructor|].
  cbn [folderKeys].
  assert (Hkey : JS.startsWith (if JS.truthy cur then cur +:+ "/" +:+ part else part)
                               "/" = false).
  { destruct cur as [|c cur]; simpl in *.
    - destruct part as [|c part]; [done|]. simpl in *.
      destruct (Ascii.eqb c "/"); [done|]. done.
    - apply andb_false_iff in Hcur as [->|Hcur]; [done|].
      by destruct cur. }
  constructor; [done|]. by apply IH.
Qed.

Lemma fold_prefix (x h : string) (t : list string) :
  fold_left (λ acc p, acc +:+ "/" +:+ p) t (x +:+ h)
  = x +:+ fold_left (λ acc p, acc +:+ "/" +:+ p) t h.
Proof.
  revert h. induction t as [|p t IH]; intros h; [done|].
  simpl. by rewrite <- IH, append_assoc.
Qed.

Lemma split_rejoin (s : string) :
  ∃ h t, split "/" s = h :: t
         ∧ fold_left (λ acc p, acc +:+ "/" +:+ p) t h = s.
Proof.
  induction s as [|c s (h & t & Hsplit & Hs)]; simpl.
  - by exists "", [].
  - rewrite Hsplit. destruct (Ascii.eqb c "/") eqn:Hc.
    + apply Ascii.eqb_eq in Hc as ->. exists "", (h :: t). split; [done|].
      pose proof (fold_prefix "/" h t) as Hp. simpl in *. by rewrite Hp, Hs.
    + exists (String c h), t. split; [done|].
      pose proof (fold_prefix (String c "") h t) as Hp. simpl in *.
      by rewrite Hp, Hs.
Qed.

Lemma last_key (parts : list string) (cur : string) :
  JS.truthy cur = true →
  last (cur :: folderKeys cur parts)
  = Some (fold_left (λ acc p, acc +:+ "/" +:+ p) parts cur).
Proof.
  revert cur. induction parts as [|part parts IH]; intros cur Hcur; [done|].
  cbn [folderKeys fold_left]. rewrite Hcur, last_cons_cons.
  apply IH. by destruct cur.
Qed.

Lemma own_key (p : string) :
  JS.truthy p = true →
  JS.startsWith p "/" = false →
  p ∈ folderKeys "" (split "/" p).
Proof.
  intros Hp Hslash. destruct (split_rejoin p) as (h & t & Hsplit & Hjoin).
  rewrite Hsplit. cbn [folderKeys JS.truthy String.eqb negb].
  assert (Hh : JS.truthy h = true).
  { destruct p as [|c p]; [done|]. simpl in Hsplit, Hslash.
    destruct (Ascii.eqb c "/"); [by destruct p|].
    destruct (split "/" p); by injection Hsplit as <- _. }
  apply last_Some_elem_of. by rewrite last_key, Hjoin.
Qed.

(** X18. What the side bar lists. The records without a folder path are
    the file entries of the top level, in the order of the File Set; the file
    entries of a folder are the records whose path is the folder's key, in
    that order; and a record with a folder path is given a folder to be
    listed in exactly when its path does not begin with a slash: a record
    whose path begins with [/] is on no list of the tree. *)
Theorem tree_lists_files (fs : list FileData) :
  leaves (tree (buildTreeStructure fs))
  = filter (λ f, JS.truthy_opt (path f) = false) fs
  ∧ (∀ k n, folderMap (buildTreeStructure fs) !! k = Some n →
            leaves (children n)
            = filter (λ f, JS.truthy_opt (path f) = true ∧ path f = Some k) fs)
  ∧ (∀ f p, f ∈ fs → path f = Some p → JS.truthy p = true →
            (is_Some (folderMap (buildTreeStructure fs) !! p)
             ↔ JS.startsWith p "/" = false)).
Proof.
  unfold buildTreeStructure.
  set (t0 := fold_left addFolders fs {| tree := []; folderMap := ∅ |}).
  assert (Hempty : noLeaves {| tree := []; folderMap := ∅ |}).
  { split; [done|]. intros k n. cbn [folderMap]. by rewrite lookup_empty. }
  destruct (first_pass fs _ Hempty) as [[Hroots Hkids] Hkeys]. fold t0 in Hroots, Hkids, Hkeys.
  destruct (second_pass fs t0) as [Htree Hmap].
  split; [by rewrite Htree, Hroots|]. split.
  - intros k n Hn. specialize (Hmap k).
    destruct (folderMap t0 !! k) as [n0|] eqn:Hn0; [|congruence].
    destruct Hmap as (n' & Hn' & Hleaves). rewrite Hn in Hn'.
    injection Hn' as <-. by rewrite Hleaves, (Hkids _ _ Hn0).
  - intros f p Hf Hpath Hp.
    assert (Hsame : is_Some (folderMap (fold_left addFile_to_tree fs t0) !! p)
                    ↔ is_Some (folderMap t0 !! p)).
    { specialize (Hmap p). destruct (folderMap t0 !! p) as [n0|].
      - destruct Hmap as (n' & -> & _). done.
      - rewrite Hmap. done. }
    rewrite Hsame, Hkeys. cbn [folderMap]. rewrite lookup_empty. split.
    + intros [H|(g & Hg & Hgp & Hk)]; [by destruct H|].
      pose proof (folderKeys_no_slash (split "/" (default "" (path g))) ""
                    eq_refl (split_parts_plain "/" _)) as Hall.
      rewrite Forall_forall in Hall. by apply Hall.
    + intros Hslash. right. exists f. rewrite Hpath. simpl.
      split; [done|]. split; [done|]. by apply own_key.
Qed.

Lemma tree_lists_files_witness :
  leaves (tree (buildTreeStructure
                  [ mkFileData "a.js" "1" (Some "src") (Some file);
                    mkFileData "b.js" "2" (Some "/src") (Some file);
                    mkFileData "c.js" "3" (Some "") (Some file) ]))
  = [mkFileData "c.js" "3" (Some "") (Some file)]
  ∧ folderMap (buildTreeStructure
                 [ mkFileData "a.js" "1" (Some "src") (Some file);
                   mkFileData "b.js" "2" (Some "/src") (Some file);
                   mkFileData "c.js" "3" (Some "") (Some file) ]) !! "/src"
    = None.
Proof.
  destruct (tree_lists_files
              [ mkFileData "a.js" "1" (Some "src") (Some file);
                mkFileData "b.js" "2" (Some "/src") (Some file);
                mkFileData "c.js" "3" (Some "") (Some file) ])
    as (Htop & _ & Hfolder).
  split; [by rewrite Htop|].
  apply eq_None_not_Some. intros Hsome.
  apply (Hfolder (mkFileData "b.js" "2" (Some "/src") (Some file)) "/src") in Hsome;
    [done|apply list_elem_of_In; simpl; auto|done|done].
Defined.
